(** * Objects tasks: Rectangle, getJSON / fromJSON and the css selector builder

    A shallow embedding of [task/08-objects-tasks.js].

    - The numbers of a rectangle are JavaScript numbers, IEEE 754 binary64
      values: [float].  The specificity of a selector only ever adds up
      small integers: [Z].
    - A method that mutates [this] and may [throw] is a function from the
      state of [this] to either an exception or a returned value together
      with the new state of [this] (the monad [method]).  [return this]
      followed by a chained call is sequencing in that monad.
    - A [Set] of strings is a [gset string]; an array of strings that is
      only pushed to is a [list string], [push] appending at the end.
    - [getJSON] and [fromJSON] call four built-ins.  [Object.create] and
      [Object.assign] are modelled on objects that have a prototype and a
      list of own properties.  [JSON.stringify] and [JSON.parse] are the
      two operations of a class [JSONRuntime]; [Module JSON] gives the
      instance on binary64 numbers, and [Module Grammar] the grammar of
      the texts that it reads. *)

From Stdlib Require Import Floats ZArith Ascii.
From Stdlib Require Import DecimalString DecimalPos DecimalZ DecimalFacts.
From stdpp Require Import gmap strings list pretty.

Local Open Scope string_scope.
Local Open Scope list_scope.

(** ** Exceptions *)

(** [new Error(message)] is what the selector throws; [SyntaxError] is what
    [JSON.parse] throws on a text that is not JSON; [TypeError] is what
    [Object.assign] throws when a property cannot be written. *)
Inductive exn : Type :=
  | Error (message : string)
  | SyntaxError
  | TypeError.

Inductive result (A : Type) : Type :=
  | Ok (a : A)
  | Throw (e : exn).
Arguments Ok {A} a.
Arguments Throw {A} e.

#[global] Instance result_ret : MRet result := fun _ a => Ok a.
#[global] Instance result_bind : MBind result := fun _ _ f r =>
  match r with
  | Ok a => f a
  | Throw e => Throw e
  end.

(** ** Rectangle *)

(** [function Rectangle(width, height) { this.width = width; this.height = height; }] *)
Record Rectangle : Type := new_Rectangle { width : float; height : float }.

(** [Rectangle.prototype.getArea] *)
Definition getArea (this : Rectangle) : float :=
  (width this * height this)%float.

(** ** class Selector *)

Record Selector : Type := mkSelector {
  specificity : Z;
  parts : list string;
  seen : gset string
}.

(** The constructor; it takes no parameter, so [new Selector(x)] ignores [x]. *)
Definition new_Selector : Selector :=
  {| specificity := 0; parts := []; seen := ∅ |}.

(** A method called on a selector. *)
Definition method (A : Type) : Type := Selector -> result (A * Selector).

#[global] Instance method_ret : MRet method := fun _ a this => Ok (a, this).
#[global] Instance method_bind : MBind method := fun _ _ f m this =>
  match m this with
  | Ok (a, this') => f a this'
  | Throw e => Throw e
  end.

(** The object a chain of calls leaves behind, and the value it returns. *)
Definition exec {A} (m : method A) (this : Selector) : result Selector :=
  match m this with
  | Ok (_, this') => Ok this'
  | Throw e => Throw e
  end.

Definition eval {A} (m : method A) (this : Selector) : result A :=
  match m this with
  | Ok (a, _) => Ok a
  | Throw e => Throw e
  end.

(** A call on the selector that an expression evaluates to: [r.m(...)].
    [r ;> m] is the object the call leaves (the builder methods return
    [this]), [r ;>> m] is the value the call returns. *)
Definition call {A} (r : result Selector) (m : method A) : result Selector :=
  this ← r; exec m this.

Definition call_value {A} (r : result Selector) (m : method A) : result A :=
  this ← r; eval m this.

Notation "r ;> m" := (call r m) (at level 50, left associativity).
Notation "r ;>> m" := (call_value r m) (at level 50, left associativity).

(** [throw new Error(message)] *)
Definition throw {A} (e : exn) : method A := fun _ => Throw e.

Definition duplicate_message : string :=
  "Element, id and pseudo-element should not occur more than one time inside the selector".

(** [Array.prototype.join] on an array of strings. *)
Definition join (separator : string) (array : list string) : string :=
  String.concat separator array.

Module Selector.

(** [this.parts.push(part)] *)
Definition push_part (part : string) : method unit := fun this =>
  Ok (tt, {| specificity := specificity this;
             parts := parts this ++ [part];
             seen := seen this |}).

(** [this.specificity += n] *)
Definition add_specificity (n : Z) : method unit := fun this =>
  Ok (tt, {| specificity := specificity this + n;
             parts := parts this;
             seen := seen this |}).

(** [this.seen.add(value)] *)
Definition seen_add (value : string) : method unit := fun this =>
  Ok (tt, {| specificity := specificity this;
             parts := parts this;
             seen := seen this ∪ {[ value ]} |}).

(** [this.seen.has(value)] *)
Definition seen_has (value : string) : method bool := fun this =>
  Ok (bool_decide (value ∈ seen this), this).

Definition _checkDuplicate (value : string) : method unit :=
  has ← seen_has value;
  if has : bool then throw (Error duplicate_message) else seen_add value.

Definition element (value : string) : method unit :=
  _checkDuplicate "element";;
  push_part value;;
  add_specificity 1.

Definition id (value : string) : method unit :=
  _checkDuplicate "id";;
  push_part ("#" +:+ value);;
  add_specificity 100.

Definition class (value : string) : method unit :=
  _checkDuplicate "class";;
  push_part ("." +:+ value);;
  add_specificity 10.

Definition attr (value : string) : method unit :=
  _checkDuplicate "attr";;
  let attr := "[" +:+ value +:+ "]" in
  push_part attr;;
  add_specificity 1.

Definition pseudoClass (value : string) : method unit :=
  _checkDuplicate "pseudoClass";;
  push_part (":" +:+ value);;
  add_specificity 1.

Definition pseudoElement (value : string) : method unit :=
  _checkDuplicate "psuedoElement";;
  push_part ("::" +:+ value);;
  add_specificity 0.

Definition stringify : method string := fun this =>
  Ok (join "" (parts this), this).

End Selector.

(** ** The facade *)

Module cssSelectorBuilder.

Definition element (value : string) : result Selector :=
  exec (Selector.element value) new_Selector.

Definition id (value : string) : result Selector :=
  exec (Selector.element "";; Selector.id value) new_Selector.

Definition class (value : string) : result Selector :=
  exec (Selector.element "";; Selector.class value) new_Selector.

Definition attr (value : string) : result Selector :=
  exec (Selector.element "";; Selector.attr value) new_Selector.

Definition pseudoClass (value : string) : result Selector :=
  exec (Selector.element "";; Selector.pseudoClass value) new_Selector.

Definition pseudoElement (value : string) : result Selector :=
  exec (Selector.element "";; Selector.pseudoElement value) new_Selector.

Definition combine (selector1 : Selector) (combinator : string)
    (selector2 : Selector) : Selector :=
  let newSelector := new_Selector in
  {| specificity := Z.max (specificity selector1) (specificity selector2);
     parts := ((((parts newSelector ++ parts selector1) ++ [" "])
                 ++ [combinator]) ++ [" "]) ++ parts selector2;
     seen := seen newSelector |}.

End cssSelectorBuilder.

(** ** Calls on a builder

    The six fragment-adding methods, named so that statements can range
    over every sequence of calls made on one builder. *)

Inductive category : Type :=
  | Element | Id | Class | Attr | PseudoClass | PseudoElement.

(** The method of [Selector] for a category. *)
Definition add (c : category) (value : string) : method unit :=
  match c with
  | Element => Selector.element value
  | Id => Selector.id value
  | Class => Selector.class value
  | Attr => Selector.attr value
  | PseudoClass => Selector.pseudoClass value
  | PseudoElement => Selector.pseudoElement value
  end.

(** The entry point of the facade for a category. *)
Definition facade (c : category) (value : string) : result Selector :=
  match c with
  | Element => cssSelectorBuilder.element value
  | Id => cssSelectorBuilder.id value
  | Class => cssSelectorBuilder.class value
  | Attr => cssSelectorBuilder.attr value
  | PseudoClass => cssSelectorBuilder.pseudoClass value
  | PseudoElement => cssSelectorBuilder.pseudoElement value
  end.

(** The text a call pushes on [parts]. *)
Definition fragment (call : category * string) : string :=
  match call with
  | (Element, value) => value
  | (Id, value) => "#" +:+ value
  | (Class, value) => "." +:+ value
  | (Attr, value) => "[" +:+ value +:+ "]"
  | (PseudoClass, value) => ":" +:+ value
  | (PseudoElement, value) => "::" +:+ value
  end.

(** The string a call hands to [_checkDuplicate]. *)
Definition seen_key (c : category) : string :=
  match c with
  | Element => "element"
  | Id => "id"
  | Class => "class"
  | Attr => "attr"
  | PseudoClass => "pseudoClass"
  | PseudoElement => "psuedoElement"
  end.

(** Element, id and pseudo-element: the categories the message names. *)
Definition unique (c : category) : bool :=
  match c with
  | Element | Id | PseudoElement => true
  | Class | Attr | PseudoClass => false
  end.

(** What a call adds to [specificity]. *)
Definition weight (c : category) : Z :=
  match c with
  | Element => 1
  | Id => 100
  | Class => 10
  | Attr => 1
  | PseudoClass => 1
  | PseudoElement => 0
  end.

(** A chain of calls [.c1(v1).c2(v2)...] on one builder. *)
Fixpoint calls (l : list (category * string)) : method unit :=
  match l with
  | [] => mret tt
  | (c, value) :: l' => add c value;; calls l'
  end.

(** ** JSON values

    What [JSON.parse] builds and [JSON.stringify] takes: null, booleans,
    numbers, strings, arrays and objects.  An object is the list of its own
    properties in enumeration order.  The type of numbers is a parameter. *)

#[local] Unset Elimination Schemes.
Inductive value (number : Type) : Type :=
  | VNull
  | VBool (b : bool)
  | VNum (n : number)
  | VStr (s : string)
  | VArr (elements : list (value number))
  | VObj (properties : list (string * value number)).
#[local] Set Elimination Schemes.
Arguments VNull {number}.
Arguments VBool {number} b.
Arguments VNum {number} n.
Arguments VStr {number} s.
Arguments VArr {number} elements.
Arguments VObj {number} properties.

(** The two built-ins of the runtime that [getJSON] and [fromJSON] call.
    [JSON_parse] gives [None] where [JSON.parse] throws its [SyntaxError],
    which it does exactly on the texts that are not JSON. *)
Class JSONRuntime (number : Type) : Type := {
  JSON_stringify : value number -> string;
  JSON_parse : string -> option (value number)
}.

(** ** Objects and prototypes *)

(** What the [[Prototype]] slot of an object can hold here:
    - [null];
    - [Object.prototype], which carries the accessor [__proto__];
    - a shape such as [Rectangle.prototype]: an object whose own properties
      are methods set by assignment (writable data properties), on top of a
      parent;
    - an object or array built by [JSON.parse] (its own parent is
      [Object.prototype], through [Array.prototype] for an array). *)
Inductive prototype (number : Type) : Type :=
  | null_prototype
  | Object_prototype
  | shape_prototype (methods : list string) (parent : prototype number)
  | parsed_prototype (v : value number).
Arguments null_prototype {number}.
Arguments Object_prototype {number}.
Arguments shape_prototype {number} methods parent.
Arguments parsed_prototype {number} v.

Record object (number : Type) : Type := mkObject {
  proto : prototype number;
  own : list (string * value number)
}.
Arguments mkObject {number} proto own.
Arguments proto {number} o.
Arguments own {number} o.

Section Objects.

Context {number : Type}.

(** [Object.create(proto)] *)
Definition Object_create (proto : prototype number) : object number :=
  {| proto := proto; own := [] |}.

(** The own enumerable string-keyed properties of [ToObject(v)], in
    order: the properties of an object, the indices of an array and of a
    string; none for a boolean or a number.  [Object.assign] skips a
    [null] source. *)
Definition own_enumerable (v : value number) : list (string * value number) :=
  match v with
  | VObj properties => properties
  | VArr elements => imap (fun i x => (pretty i, x)) elements
  | VStr s =>
      imap (fun i c => (pretty i, VStr (String c "")))
        (String.list_ascii_of_string s)
  | VNull | VBool _ | VNum _ => []
  end.

(** The walk of [[Set]] up the prototype chain for the key [__proto__]:
    does the first object that has such a property hold the accessor of
    [Object.prototype]?  Every other property in this model is a writable
    data property.  A parsed object may own a property of that name; a
    parsed array does not. *)
Fixpoint finds_proto_accessor (p : prototype number) : bool :=
  match p with
  | null_prototype => false
  | Object_prototype => true
  | shape_prototype methods parent =>
      if bool_decide ("__proto__" ∈ methods) then false
      else finds_proto_accessor parent
  | parsed_prototype (VObj properties) =>
      bool_decide ("__proto__" ∉ properties.*1)
  | parsed_prototype _ => true
  end.

(** Writing an own data property: in place when the key is there, at the
    end when it is new. *)
Fixpoint define_own (key : string) (v : value number)
    (properties : list (string * value number)) : list (string * value number) :=
  match properties with
  | [] => [(key, v)]
  | (k, x) :: properties' =>
      if bool_decide (k = key) then (k, v) :: properties'
      else (k, x) :: define_own key v properties'
  end.

(** The setter of [Object.prototype.__proto__]: an object or [null]
    replaces the prototype, any other value is ignored. *)
Definition set_proto (this : object number) (v : value number) : object number :=
  match v with
  | VObj _ | VArr _ => {| proto := parsed_prototype v; own := own this |}
  | VNull => {| proto := null_prototype; own := own this |}
  | VBool _ | VNum _ | VStr _ => this
  end.

(** [this[key] = v], the [[Set]] that [Object.assign] performs.  A key
    that [this] does not own and that resolves to an accessor up the
    chain calls the setter; a writable data property up the chain, or no
    property at all, makes [v] an own property of [this]. *)
Definition Set_ (this : object number) (key : string) (v : value number)
    : object number :=
  if bool_decide (key ∈ (own this).*1) then
    {| proto := proto this; own := define_own key v (own this) |}
  else if bool_decide (key = "__proto__") && finds_proto_accessor (proto this)
  then set_proto this v
  else {| proto := proto this; own := define_own key v (own this) |}.

(** [Object.assign(target, source)] *)
Definition Object_assign (target : object number) (source : value number)
    : object number :=
  foldl (fun this kv => Set_ this kv.1 kv.2) target (own_enumerable source).

Context `{JSONRuntime number}.

Definition getJSON (obj : value number) : string :=
  JSON_stringify obj.

Definition fromJSON (proto : prototype number) (json : string)
    : result (object number) :=
  let obj := Object_create proto in
  match JSON_parse json with
  | Some parsed => Ok (Object_assign obj parsed)
  | None => Throw SyntaxError
  end.

End Objects.

(** [Rectangle.prototype]: [constructor] and [getArea] on top of
    [Object.prototype]. *)
Definition Rectangle_prototype {number : Type} : prototype number :=
  shape_prototype ["constructor"; "getArea"] Object_prototype.

(** ** Prototypes with properties that cannot be written

    [Object.freeze] and [Object.defineProperty] make a data property that
    is not writable, and [get] without [set] makes an accessor property
    without a setter.  On such a property up the prototype chain the
    [[Set]] of [Object.assign] fails, and [Object.assign] throws a
    [TypeError].  [Module Descriptors] has [fromJSON] on prototypes whose
    properties carry these attributes. *)

Module Descriptors.

(** What a property of a prototype is for [[Set]]: a data property,
    writable or not, or an accessor property without a setter. *)
Inductive descriptor : Type :=
  | data (writable : bool)
  | getter.

(** A prototype chain: one of the prototypes above, or an object with
    described properties on top of a chain. *)
Inductive chain (number : Type) : Type :=
  | ordinary (p : prototype number)
  | described (properties : list (string * descriptor)) (parent : chain number).
Arguments ordinary {number} p.
Arguments described {number} properties parent.

Record object (number : Type) : Type := mkObject {
  proto : chain number;
  own : list (string * value number)
}.
Arguments mkObject {number} proto own.
Arguments proto {number} o.
Arguments own {number} o.

(** What [[Set]] does with a key that the receiver does not own. *)
Inductive outcome : Type :=
  | creates_own
  | calls_proto_setter
  | fails.

Section Objects.

Context {number : Type}.

(** [Object.create(proto)] *)
Definition Object_create (proto : chain number) : object number :=
  {| proto := proto; own := [] |}.

Fixpoint descriptor_of (key : string) (properties : list (string * descriptor))
    : option descriptor :=
  match properties with
  | [] => None
  | (k, d) :: properties' =>
      if bool_decide (k = key) then Some d else descriptor_of key properties'
  end.

(** The walk of [[Set]] up the chain: the first object that has the key
    decides. *)
Fixpoint resolve (key : string) (p : chain number) : outcome :=
  match p with
  | ordinary p =>
      if bool_decide (key = "__proto__") && finds_proto_accessor p
      then calls_proto_setter else creates_own
  | described properties parent =>
      match descriptor_of key properties with
      | Some (data true) => creates_own
      | Some (data false) | Some getter => fails
      | None => resolve key parent
      end
  end.

(** The setter of [Object.prototype.__proto__]. *)
Definition set_proto (this : object number) (v : value number) : object number :=
  match v with
  | VObj _ | VArr _ => {| proto := ordinary (parsed_prototype v); own := own this |}
  | VNull => {| proto := ordinary null_prototype; own := own this |}
  | VBool _ | VNum _ | VStr _ => this
  end.

(** [this[key] = v] as [Object.assign] performs it: a failed [[Set]]
    throws. *)
Definition Set_ (this : object number) (key : string) (v : value number)
    : result (object number) :=
  if bool_decide (key ∈ (own this).*1) then
    Ok {| proto := proto this; own := define_own key v (own this) |}
  else
    match resolve key (proto this) with
    | creates_own => Ok {| proto := proto this; own := define_own key v (own this) |}
    | calls_proto_setter => Ok (set_proto this v)
    | fails => Throw TypeError
    end.

Fixpoint assign (this : object number) (properties : list (string * value number))
    : result (object number) :=
  match properties with
  | [] => Ok this
  | (key, v) :: properties' =>
      match Set_ this key v with
      | Ok this' => assign this' properties'
      | Throw e => Throw e
      end
  end.

(** [Object.assign(target, source)] *)
Definition Object_assign (target : object number) (source : value number)
    : result (object number) :=
  assign target (own_enumerable source).

Context `{JSONRuntime number}.

Definition fromJSON (proto : chain number) (json : string)
    : result (object number) :=
  let obj := Object_create proto in
  match JSON_parse json with
  | Some parsed => Object_assign obj parsed
  | None => Throw SyntaxError
  end.

End Objects.

(** [Object.freeze(Rectangle.prototype)] *)
Definition frozen_Rectangle_prototype {number : Type} : chain number :=
  described [("constructor", data false); ("getArea", data false)]
    (ordinary Object_prototype).

End Descriptors.

(** An object under one of the prototypes without descriptors, seen as an
    object under a chain. *)
Definition lift {number : Type} (this : object number) : Descriptors.object number :=
  {| Descriptors.proto := Descriptors.ordinary (proto this);
     Descriptors.own := own this |}.

(** ** The JSON runtime

    [JSON.stringify] and [JSON.parse] on the values whose numbers are
    binary64, on which [getJSON] and [fromJSON] can be run.  The printer
    writes the compact form, a number as [Number::toString] does.  The
    parser reads the grammar of JSON, rounds a numeral to the nearest
    binary64 value and orders the properties of an object as a JavaScript
    object enumerates them.  The characters of a [string] are the code
    units 0000 to 00ff; an escape that names a code unit above 00ff is
    read, as [JSON.parse] reads it, but its code unit has no counterpart
    here and [?] stands in for it. *)

Module JSON.

Definition dquote : ascii := "034"%char.
Definition backslash : ascii := "\"%char.

(** *** Numbers *)

(** The binary64 value nearest to [m * 10 ^ e], ties to even, with the
    sign [neg]: what a decimal numeral denotes.  Beyond the range of
    binary64 in either direction no power of ten needs computing. *)
Definition nearest (neg : bool) (m e : Z) : float :=
  match m with
  | Zpos d =>
      if (310 <? e)%Z then (if neg then neg_infinity else infinity)
      else if (e + Z.log2 m <? -332)%Z then (if neg then -0 else 0)%float
      else
        SF2Prim
          (if (0 <=? e)%Z then
             binary_normalize prec emax
               (if neg then - (m * 10 ^ e) else m * 10 ^ e)%Z 0 neg
           else
             SFdiv prec emax (S754_finite neg d 0)
               (S754_finite false (Z.to_pos (10 ^ (- e))) 0))
  | _ => (if neg then -0 else 0)%float
  end.

Definition digit_value (c : ascii) : Z := Z.of_nat (nat_of_ascii c) - 48.

(** The number that a string of digits writes. *)
Definition decimal (s : string) : Z :=
  foldl (fun n c => 10 * n + digit_value c)%Z 0%Z (String.list_ascii_of_string s).

Definition digits_of (n : Z) : string :=
  DecimalString.NilZero.string_of_uint (N.to_uint (Z.to_N n)).

(** [a / b] multiplied by [10 ^ s]. *)
Definition scale (r : Z * Z) (s : Z) : Z * Z :=
  let (a, b) := r in
  if (0 <=? s)%Z then (a * 10 ^ s, b)%Z else (a, b * 10 ^ (- s))%Z.

(** The least [n] from [n] on with [a / b < 10 ^ n]. *)
Fixpoint magnitude (fuel : nat) (r : Z * Z) (n : Z) : Z :=
  match fuel with
  | O => n
  | S fuel =>
      let (a, b) := scale r (- n) in
      if (a <? b)%Z then n else magnitude fuel r (n + 1)%Z
  end.

(** The digits of [Number::toString]: the [k]-digit integer [s], with [k]
    as small as possible, such that [s * 10 ^ (n - k)] denotes [x]; of two
    such integers the one nearer to [x], the even one when both are as
    near.  [r] is the exact value of [x] and [10 ^ (n - 1) <= r < 10 ^ n].
    Seventeen digits tell any two binary64 values apart. *)
Fixpoint shortest (fuel : nat) (x : float) (r : Z * Z) (n k : Z) : Z * Z :=
  match fuel with
  | O => (0, k)%Z
  | S fuel =>
      let (a, b) := scale r (k - n) in
      let low := (a / b)%Z in
      let high := (low + 1)%Z in
      let low_ok := PrimFloat.eqb (nearest false low (n - k)) x in
      let high_ok := PrimFloat.eqb (nearest false high (n - k)) x in
      if low_ok && high_ok then
        match (2 * (a mod b) ?= b)%Z with
        | Lt => (low, k)
        | Gt => (high, k)
        | Eq => if Z.even low then (low, k) else (high, k)
        end
      else if low_ok then (low, k)
      else if high_ok then (high, k)
      else shortest fuel x r n (k + 1)%Z
  end.

Definition zeros (n : Z) : string :=
  String.string_of_list_ascii (replicate (Z.to_nat n) "0"%char).

(** The digits [ds] of a number below [10 ^ n], written as
    [Number::toString] writes them. *)
Definition layout (ds : string) (n : Z) : string :=
  let k := Z.of_nat (String.length ds) in
  if bool_decide (k <= n <= 21)%Z then ds +:+ zeros (n - k)
  else if bool_decide (0 < n <= 21)%Z then
    String.substring 0 (Z.to_nat n) ds +:+ "."
    +:+ String.substring (Z.to_nat n) (Z.to_nat (k - n)) ds
  else if bool_decide (-6 < n <= 0)%Z then "0." +:+ zeros (- n) +:+ ds
  else
    (if bool_decide (k = 1)%Z then ds
     else String.substring 0 1 ds +:+ "." +:+ String.substring 1 (Z.to_nat (k - 1)) ds)
    +:+ "e" +:+ (if bool_decide (n - 1 < 0)%Z then "-" else "+")
    +:+ digits_of (Z.abs (n - 1)).

(** [m * 2 ^ e], a positive number, as [Number::toString] writes it. *)
Definition positive_to_string (m e : Z) : string :=
  let x := SF2Prim (S754_finite false (Z.to_pos m) e) in
  let r := if (0 <=? e)%Z then (m * 2 ^ e, 1)%Z else (m, 2 ^ (- e))%Z in
  let n := magnitude 5 r ((Z.log2 m + e) * 30103 / 100000)%Z in
  let (s, k) := shortest 17 x r n 1%Z in
  if bool_decide (s = 10 ^ k)%Z then layout "1" (n + 1) else layout (digits_of s) n.

(** A number as [JSON.stringify] writes it: [null] when it is not
    finite. *)
Definition number_to_string (x : float) : string :=
  match Prim2SF x with
  | S754_zero _ => "0"
  | S754_infinity _ | S754_nan => "null"
  | S754_finite s m e =>
      (if s then "-" else "") +:+ positive_to_string (Zpos m) e
  end.

(** *** Printing *)

Definition hex_digit (n : nat) : ascii :=
  match n with
  | 0 => "0" | 1 => "1" | 2 => "2" | 3 => "3" | 4 => "4" | 5 => "5"
  | 6 => "6" | 7 => "7" | 8 => "8" | 9 => "9" | 10 => "a" | 11 => "b"
  | 12 => "c" | 13 => "d" | 14 => "e" | _ => "f"
  end%char.

(** One character of a string, as [QuoteJSONString] writes it. *)
Definition escape (c : ascii) : string :=
  if bool_decide (c = dquote) then String backslash (String dquote "")
  else if bool_decide (c = backslash) then String backslash (String backslash "")
  else if bool_decide (c = "008"%char) then "\b"
  else if bool_decide (c = "009"%char) then "\t"
  else if bool_decide (c = "010"%char) then "\n"
  else if bool_decide (c = "012"%char) then "\f"
  else if bool_decide (c = "013"%char) then "\r"
  else if bool_decide (nat_of_ascii c < 32) then
    "\u00" +:+ String (hex_digit (nat_of_ascii c / 16))
                (String (hex_digit (nat_of_ascii c mod 16)) "")
  else String c "".

Fixpoint escape_all (s : string) : string :=
  match s with
  | "" => ""
  | String c s' => escape c +:+ escape_all s'
  end.

Definition quote (s : string) : string :=
  String dquote (escape_all s +:+ String dquote "").

Fixpoint stringify (v : value float) : string :=
  match v with
  | VNull => "null"
  | VBool true => "true"
  | VBool false => "false"
  | VNum x => number_to_string x
  | VStr s => quote s
  | VArr elements => "[" +:+ join "," (map stringify elements) +:+ "]"
  | VObj properties =>
      "{" +:+ join ","
                (map (fun kv => match kv with
                                | (k, x) => quote k +:+ ":" +:+ stringify x
                                end) properties)
          +:+ "}"
  end.

(** *** Parsing *)

Definition is_ws (c : ascii) : bool :=
  bool_decide (c = " "%char) || bool_decide (c = "009"%char)
  || bool_decide (c = "010"%char) || bool_decide (c = "013"%char).

Fixpoint skip_ws (s : string) : string :=
  match s with
  | String c s' => if is_ws c then skip_ws s' else s
  | "" => ""
  end.

(** [strip p s] is what follows [p] in [s], when [s] starts with [p]. *)
Fixpoint strip (p s : string) : option string :=
  match p, s with
  | "", _ => Some s
  | String a p', String b s' => if bool_decide (a = b) then strip p' s' else None
  | String _ _, "" => None
  end.

Definition is_digit (c : ascii) : bool :=
  match c with
  | "0" | "1" | "2" | "3" | "4" | "5" | "6" | "7" | "8" | "9" => true
  | _ => false
  end%char.

Fixpoint span_digits (s : string) : string * string :=
  match s with
  | String c s' =>
      if is_digit c
      then let (ds, rest) := span_digits s' in (String c ds, rest)
      else ("", s)
  | "" => ("", "")
  end.

(** A minus sign, if there is one. *)
Definition scan_minus (s : string) : bool * string :=
  match s with
  | String c s' => if bool_decide (c = "-"%char) then (true, s') else (false, s)
  | "" => (false, "")
  end.

(** The sign of an exponent, if there is one. *)
Definition scan_sign (s : string) : bool * string :=
  match s with
  | String c s' =>
      if bool_decide (c = "-"%char) then (true, s')
      else if bool_decide (c = "+"%char) then (false, s')
      else (false, s)
  | "" => (false, "")
  end.

(** The integer digits: at least one, and no zero in front of another
    digit. *)
Definition scan_integer (s : string) : option (string * string) :=
  let (ds, rest) := span_digits s in
  match ds with
  | "" => None
  | String c ds' =>
      if bool_decide (c = "0"%char) && negb (bool_decide (ds' = "")) then None
      else Some (ds, rest)
  end.

(** The digits of a fraction, none when there is no point; a point wants
    a digit after it. *)
Definition scan_fraction (s : string) : option (string * string) :=
  match s with
  | String c s' =>
      if bool_decide (c = "."%char) then
        let (ds, rest) := span_digits s' in
        if bool_decide (ds = "") then None else Some (ds, rest)
      else Some ("", s)
  | "" => Some ("", "")
  end.

(** The exponent, 0 when there is none; [e] or [E] wants a digit after
    it or after its sign. *)
Definition scan_exponent (s : string) : option (Z * string) :=
  match s with
  | String c s' =>
      if bool_decide (c = "e"%char) || bool_decide (c = "E"%char) then
        let (neg, s'') := scan_sign s' in
        let (ds, rest) := span_digits s'' in
        if bool_decide (ds = "") then None
        else Some (if neg then (- decimal ds)%Z else decimal ds, rest)
      else Some (0%Z, s)
  | "" => Some (0%Z, "")
  end.

Definition parse_number (s : string) : option (float * string) :=
  let (neg, s) := scan_minus s in
  '(int, s) ← scan_integer s;
  '(frac, s) ← scan_fraction s;
  '(exp, rest) ← scan_exponent s;
  Some (nearest neg (decimal (int +:+ frac))
          (exp - Z.of_nat (String.length frac)), rest).

Definition hex_value (c : ascii) : option nat :=
  let n := nat_of_ascii c in
  if bool_decide (48 <= n <= 57) then Some (n - 48)
  else if bool_decide (97 <= n <= 102) then Some (n - 87)
  else if bool_decide (65 <= n <= 70) then Some (n - 55)
  else None.

(** The character a one-letter escape stands for. *)
Definition unescape (c : ascii) : option ascii :=
  if bool_decide (c = dquote) then Some dquote
  else if bool_decide (c = backslash) then Some backslash
  else if bool_decide (c = "/"%char) then Some "/"%char
  else if bool_decide (c = "b"%char) then Some "008"%char
  else if bool_decide (c = "f"%char) then Some "012"%char
  else if bool_decide (c = "n"%char) then Some "010"%char
  else if bool_decide (c = "r"%char) then Some "013"%char
  else if bool_decide (c = "t"%char) then Some "009"%char
  else None.

(** The character for the code unit [n]. *)
Definition code_unit (n : nat) : ascii :=
  if bool_decide (n < 256) then ascii_of_nat n else "?"%char.

(** The characters of a string up to its closing quote. *)
Fixpoint parse_chars (s : string) : option (string * string) :=
  match s with
  | "" => None
  | String c s' =>
      if bool_decide (c = dquote) then Some ("", s')
      else if bool_decide (c = backslash) then
        match s' with
        | String e s'' =>
            match unescape e with
            | Some c' =>
                '(str, rest) ← parse_chars s''; Some (String c' str, rest)
            | None =>
                match s'' with
                | String h1 (String h2 (String h3 (String h4 s4))) =>
                    if bool_decide (e = "u"%char) then
                      a ← hex_value h1; b ← hex_value h2;
                      c ← hex_value h3; d ← hex_value h4;
                      '(str, rest) ← parse_chars s4;
                      Some (String (code_unit (4096 * a + 256 * b + 16 * c + d)) str,
                            rest)
                    else None
                | _ => None
                end
            end
        | "" => None
        end
      else if bool_decide (nat_of_ascii c < 32) then None
      else '(str, rest) ← parse_chars s'; Some (String c str, rest)
  end.

(** The array index that a key writes, when it writes one: the numeral,
    without a zero in front, of an integer below [2 ^ 32 - 1]. *)
Definition array_index (key : string) : option Z :=
  let n := decimal (span_digits key).1 in
  if bool_decide (digits_of n = key) && bool_decide (n < 4294967295)%Z
  then Some n else None.

Fixpoint insert_index (n : Z) (kv : string * value float)
    (l : list (Z * (string * value float))) : list (Z * (string * value float)) :=
  match l with
  | [] => [(n, kv)]
  | (m, x) :: l' =>
      if (n <? m)%Z then (n, kv) :: l else (m, x) :: insert_index n kv l'
  end.

(** The order in which a JavaScript object enumerates its properties:
    the array indices in ascending order, then the other keys in the
    order in which they were created. *)
Definition enumeration_order (properties : list (string * value float))
    : list (string * value float) :=
  (foldr (fun kv l => match array_index kv.1 with
                      | Some n => insert_index n kv l
                      | None => l
                      end) [] properties).*2
  ++ filter (fun kv => array_index kv.1 = None) properties.

(** The properties of an object: a repeated key keeps its first place in
    the order of creation and its last value. *)
Definition build (members : list (string * value float))
    : list (string * value float) :=
  enumeration_order
    (foldl (fun properties kv => define_own kv.1 kv.2 properties) [] members).

Fixpoint parse_value (fuel : nat) (s : string) : option (value float * string) :=
  match fuel with
  | O => None
  | S fuel =>
      match skip_ws s with
      | "" => None
      | String c rest =>
          if bool_decide (c = "n"%char) then
            rest' ← strip "ull" rest; Some (VNull, rest')
          else if bool_decide (c = "t"%char) then
            rest' ← strip "rue" rest; Some (VBool true, rest')
          else if bool_decide (c = "f"%char) then
            rest' ← strip "alse" rest; Some (VBool false, rest')
          else if bool_decide (c = dquote) then
            '(str, rest') ← parse_chars rest; Some (VStr str, rest')
          else if bool_decide (c = "["%char) then
            match strip "]" (skip_ws rest) with
            | Some rest' => Some (VArr [], rest')
            | None =>
                '(elements, rest') ← parse_elements fuel rest;
                Some (VArr elements, rest')
            end
          else if bool_decide (c = "{"%char) then
            match strip "}" (skip_ws rest) with
            | Some rest' => Some (VObj [], rest')
            | None =>
                '(members, rest') ← parse_members fuel rest;
                Some (VObj (build members), rest')
            end
          else
            '(x, rest') ← parse_number (String c rest); Some (VNum x, rest')
      end
  end
with parse_elements (fuel : nat) (s : string)
    : option (list (value float) * string) :=
  match fuel with
  | O => None
  | S fuel =>
      '(v, rest) ← parse_value fuel s;
      match skip_ws rest with
      | String c rest' =>
          if bool_decide (c = ","%char) then
            '(elements, rest'') ← parse_elements fuel rest';
            Some (v :: elements, rest'')
          else if bool_decide (c = "]"%char) then Some ([v], rest')
          else None
      | "" => None
      end
  end
with parse_members (fuel : nat) (s : string)
    : option (list (string * value float) * string) :=
  match fuel with
  | O => None
  | S fuel =>
      rest ← strip (String dquote "") (skip_ws s);
      '(k, rest) ← parse_chars rest;
      rest ← strip ":" (skip_ws rest);
      '(v, rest) ← parse_value fuel rest;
      match skip_ws rest with
      | String c rest' =>
          if bool_decide (c = ","%char) then
            '(members, rest'') ← parse_members fuel rest';
            Some ((k, v) :: members, rest'')
          else if bool_decide (c = "}"%char) then Some ([(k, v)], rest')
          else None
      | "" => None
      end
  end.

(** [JSON.parse]: one value, then nothing but white space. *)
Definition parse (text : string) : option (value float) :=
  '(v, rest) ← parse_value (S (String.length text)) text;
  if bool_decide (skip_ws rest = "") then Some v else None.

#[global] Instance runtime : JSONRuntime float :=
  {| JSON_stringify := stringify; JSON_parse := parse |}.

(** A text written with ['] where JSON has the double quote. *)
Fixpoint text (s : string) : string :=
  match s with
  | "" => ""
  | String c s' =>
      String (if bool_decide (c = "'"%char) then dquote else c) (text s')
  end.

End JSON.

(** ** The grammar of JSON

    The texts that [JSON.parse] takes, production by production as ECMA-404
    and RFC 8259 give them.  Each predicate holds of the strings that its
    production derives. *)

Module Grammar.

Definition one_of (chars : string) (c : ascii) : Prop :=
  c ∈ String.list_ascii_of_string chars.

#[global] Instance one_of_dec chars c : Decision (one_of chars c).
Proof. unfold one_of. apply _. Defined.

Definition digit : ascii -> Prop := one_of "0123456789".
Definition onenine : ascii -> Prop := one_of "123456789".
Definition hex : ascii -> Prop := one_of "0123456789abcdefABCDEF".

(** White space: any number of spaces, line feeds, carriage returns and
    tabs. *)
Inductive ws : string -> Prop :=
  | ws_empty : ws ""
  | ws_space s : ws s -> ws (String " " s)
  | ws_line_feed s : ws s -> ws (String "010" s)
  | ws_carriage_return s : ws s -> ws (String "013" s)
  | ws_tab s : ws s -> ws (String "009" s).

Inductive digits : string -> Prop :=
  | digits_one c : digit c -> digits (String c "")
  | digits_more c s : digit c -> digits s -> digits (String c s).

Inductive integer : string -> Prop :=
  | integer_digit c : digit c -> integer (String c "")
  | integer_digits c s : onenine c -> digits s -> integer (String c s)
  | integer_minus_digit c : digit c -> integer (String "-" (String c ""))
  | integer_minus_digits c s :
      onenine c -> digits s -> integer (String "-" (String c s)).

Inductive fraction : string -> Prop :=
  | fraction_none : fraction ""
  | fraction_digits s : digits s -> fraction (String "." s).

Inductive sign : string -> Prop :=
  | sign_none : sign ""
  | sign_plus : sign "+"
  | sign_minus : sign "-".

Inductive exponent : string -> Prop :=
  | exponent_none : exponent ""
  | exponent_E sg s : sign sg -> digits s -> exponent (String "E" (sg +:+ s))
  | exponent_e sg s : sign sg -> digits s -> exponent (String "e" (sg +:+ s)).

Inductive number : string -> Prop :=
  | number_parts i f e :
      integer i -> fraction f -> exponent e -> number (i +:+ f +:+ e).

(** One character of a string: any character from 0020 on but the quote
    and the backslash, or an escape. *)
Inductive character : string -> Prop :=
  | character_plain c :
      32 <= nat_of_ascii c -> c <> JSON.dquote -> c <> JSON.backslash ->
      character (String c "")
  | character_escape c :
      c = JSON.dquote \/ one_of "\/bfnrt" c ->
      character (String JSON.backslash (String c ""))
  | character_code_unit a b c d :
      hex a -> hex b -> hex c -> hex d ->
      character
        (String JSON.backslash
           (String "u" (String a (String b (String c (String d "")))))).

Inductive characters : string -> Prop :=
  | characters_none : characters ""
  | characters_more c s :
      character c -> characters s -> characters (c +:+ s).

Inductive string_literal : string -> Prop :=
  | string_quoted s :
      characters s ->
      string_literal (String JSON.dquote (s +:+ String JSON.dquote "")).

Inductive value : string -> Prop :=
  | value_empty_object w : ws w -> value ("{" +:+ w +:+ "}")
  | value_object ms : members ms -> value ("{" +:+ ms +:+ "}")
  | value_empty_array w : ws w -> value ("[" +:+ w +:+ "]")
  | value_array es : elements es -> value ("[" +:+ es +:+ "]")
  | value_string s : string_literal s -> value s
  | value_number s : number s -> value s
  | value_true : value "true"
  | value_false : value "false"
  | value_null : value "null"
with members : string -> Prop :=
  | members_one m : member m -> members m
  | members_more m ms : member m -> members ms -> members (m +:+ "," +:+ ms)
with member : string -> Prop :=
  | member_pair w1 s w2 e :
      ws w1 -> string_literal s -> ws w2 -> element e ->
      member (w1 +:+ s +:+ w2 +:+ ":" +:+ e)
with elements : string -> Prop :=
  | elements_one e : element e -> elements e
  | elements_more e es :
      element e -> elements es -> elements (e +:+ "," +:+ es)
with element : string -> Prop :=
  | element_value w1 v w2 : ws w1 -> value v -> ws w2 -> element (w1 +:+ v +:+ w2).

(** A JSON text is an element. *)
Definition json : string -> Prop := element.

End Grammar.

(** *** Where a value starts and what follows it *)

(** The characters a value can start with. *)
Definition value_start (c : ascii) : Prop :=
  c = "{"%char \/ c = "["%char \/ c = JSON.dquote \/ c = "-"%char
  \/ Grammar.digit c \/ c = "t"%char \/ c = "f"%char \/ c = "n"%char.

(** The text does not go on with a digit. *)
Definition no_digit (s : string) : Prop :=
  match s with
  | "" => True
  | String c _ => JSON.is_digit c = false
  end.

(** The text does not go on with a point. *)
Definition no_point (s : string) : Prop :=
  match s with
  | "" => True
  | String c _ => c <> "."%char
  end.

(** The text does not go on with what would make a number longer. *)
Definition ends_number (s : string) : Prop :=
  match s with
  | "" => True
  | String c _ =>
      JSON.is_digit c = false /\ c <> "."%char /\ c <> "e"%char /\ c <> "E"%char
  end.

(** What can follow a value: white space, a comma, a closing bracket or
    brace, or the end of the text. *)
Definition delimited (s : string) : Prop :=
  match s with
  | "" => True
  | String c _ =>
      JSON.is_ws c = true \/ c = ","%char \/ c = "]"%char \/ c = "}"%char
  end.

(** What can follow an element. *)
Definition closing (s : string) : Prop :=
  match s with
  | "" => True
  | String c _ => c = ","%char \/ c = "]"%char \/ c = "}"%char
  end.

(** An object whose one own property is named [__proto__], as
    [JSON.parse] builds it from [{"__proto__":{"a":1}}]. *)
Definition proto_keyed : value float :=
  VObj [("__proto__", VObj [("a", VNum 1%float)])].

(** ** Rectangle *)

(** C7: for non-negative numbers [w] and [h], [new Rectangle(w, h)] holds
    [w] as its width and [h] as its height, and [getArea] returns their
    product [w * h]. *)
Theorem Rectangle_getArea (w h : float) :
  (0 <=? w)%float = true -> (0 <=? h)%float = true ->
  width (new_Rectangle w h) = w /\ height (new_Rectangle w h) = h /\
  getArea (new_Rectangle w h) = (w * h)%float.
Proof. intros _ _. repeat split. Qed.

(** [new Rectangle(10, 20)], the example of the documentation. *)
Lemma Rectangle_getArea_witness :
  width (new_Rectangle 10 20) = 10%float /\ height (new_Rectangle 10 20) = 20%float /\
  getArea (new_Rectangle 10 20) = (10 * 20)%float.
Proof. apply (Rectangle_getArea 10 20); reflexivity. Defined.

(** ** The selector builder *)

Section SelectorFacts.

Implicit Types (this s : Selector) (c : category) (value : string).
Implicit Types (l : list (category * string)).

(** Every fragment-adding method is one test of [seen] followed by three
    field updates. *)
Lemma add_unfold c value this :
  add c value this =
  (if bool_decide (seen_key c ∈ seen this)
   then Throw (Error duplicate_message)
   else Ok (tt, {| specificity := specificity this + weight c;
                   parts := parts this ++ [fragment (c, value)];
                   seen := seen this ∪ {[ seen_key c ]} |})).
Proof.
  destruct c; cbv [add Selector.element Selector.id Selector.class
    Selector.attr Selector.pseudoClass Selector.pseudoElement
    Selector._checkDuplicate Selector.seen_has Selector.seen_add
    Selector.push_part Selector.add_specificity throw mbind method_bind
    seen_key weight fragment specificity parts seen];
    destruct this as [sp ps sn]; by case_bool_decide.
Qed.

Lemma add_seen_throws c value this :
  seen_key c ∈ seen this -> add c value this = Throw (Error duplicate_message).
Proof. intros Hin. rewrite add_unfold. by rewrite bool_decide_eq_true_2. Qed.

Lemma add_inv c value this r :
  add c value this = Ok r ->
  (seen_key c ∉ seen this) /\
  r = (tt, {| specificity := specificity this + weight c;
              parts := parts this ++ [fragment (c, value)];
              seen := seen this ∪ {[ seen_key c ]} |}).
Proof.
  rewrite add_unfold. case_bool_decide; [discriminate|].
  intros [= <-]. done.
Qed.

Lemma calls_cons c value l this :
  calls ((c, value) :: l) this =
  match add c value this with
  | Ok (_, this') => calls l this'
  | Throw e => Throw e
  end.
Proof. reflexivity. Qed.

(** What a successful chain of calls has done to the builder. *)
Lemma calls_inv l : forall this s',
  exec (calls l) this = Ok s' ->
  parts s' = parts this ++ map fragment l /\
  seen this ⊆ seen s' /\
  (forall c, c ∈ l.*1 -> seen_key c ∈ seen s').
Proof.
  induction l as [|[c value] l IH]; intros this s' Hrun.
  - cbv in Hrun. injection Hrun as <-. rewrite app_nil_r.
    split_and!; [done|done|]. intros c Hc. by apply elem_of_nil in Hc.
  - unfold exec in Hrun. rewrite calls_cons in Hrun.
    destruct (add c value this) as [[[] s1]|e] eqn:Hadd; [|discriminate].
    apply add_inv in Hadd as [Hfresh [= ->]].
    apply IH in Hrun as (Hparts & Hseen & Hkeys). simpl in *.
    split_and!.
    + rewrite Hparts. by rewrite <- app_assoc.
    + etrans; [apply union_subseteq_l|exact Hseen].
    + intros c' Hc'. change (c' ∈ c :: l.*1) in Hc'.
      apply elem_of_cons in Hc' as [->|Hc']; [|by apply Hkeys].
      apply Hseen, elem_of_union_r. by apply elem_of_singleton.
Qed.

Lemma string_app_nil_r (x : string) : x +:+ "" = x.
Proof.
  induction x as [|a x IH]; [done|].
  change (String a (x +:+ "") = String a x). by rewrite IH.
Qed.

Lemma string_app_assoc (x y z : string) : (x +:+ y) +:+ z = x +:+ y +:+ z.
Proof.
  induction x as [|a x IH]; [done|].
  change (String a ((x +:+ y) +:+ z) = String a (x +:+ y +:+ z)).
  by rewrite IH.
Qed.

(** Joining with the empty separator is concatenation. *)
Lemma join_empty_cons (x : string) (l : list string) :
  join "" (x :: l) = x +:+ join "" l.
Proof.
  destruct l; [|done].
  change (x = x +:+ ""). by rewrite string_app_nil_r.
Qed.

Lemma join_empty_app (l1 l2 : list string) :
  join "" (l1 ++ l2) = join "" l1 +:+ join "" l2.
Proof.
  induction l1 as [|x l1 IH]; [done|].
  rewrite <- app_comm_cons, !join_empty_cons, IH.
  by rewrite string_app_assoc.
Qed.

(** The test made by [_checkDuplicate] is the same for every category:
    two calls of one method on one builder never both succeed. *)
Lemma add_twice_throws c a b this :
  exec (add c a;; add c b) this = Throw (Error duplicate_message).
Proof.
  unfold exec, mbind, method_bind.
  destruct (add c a this) as [[[] s1]|e] eqn:Hadd.
  - apply add_inv in Hadd as [_ [= ->]].
    rewrite add_seen_throws; [done|].
    apply elem_of_union_r. by apply elem_of_singleton.
  - rewrite add_unfold in Hadd. case_bool_decide; by simplify_eq.
Qed.

End SelectorFacts.

(** C1: the chain [id('main').class('container').class('editable').stringify()]
    of the documentation does not return ['#main.container.editable']: the
    second [class] call throws the duplicate error, although the chain up to
    the first [class] call stringifies to ['#main.container']. *)
Theorem id_class_class_throws :
  cssSelectorBuilder.id "main" ;> Selector.class "container"
    ;> Selector.class "editable" ;>> Selector.stringify
  = Throw (Error duplicate_message) /\
  cssSelectorBuilder.id "main" ;> Selector.class "container"
    ;>> Selector.stringify
  = Ok "#main.container".
Proof. split; vm_compute; reflexivity. Qed.

(** C2: [class] is not repeatable: on any builder the chain
    [.class(a).class(b)] throws the duplicate error, and so does
    [class('a').class('b')] from the facade, instead of giving ['.a.b']. *)
Theorem class_twice_throws :
  (forall (this : Selector) (a b : string),
     exec (Selector.class a;; Selector.class b) this
     = Throw (Error duplicate_message)) /\
  cssSelectorBuilder.class "a" ;> Selector.class "b" ;>> Selector.stringify
  = Throw (Error duplicate_message).
Proof.
  split; [|vm_compute; reflexivity].
  intros this a b. apply (add_twice_throws Class).
Qed.

(** C3: [attr] and [pseudoClass] are not repeatable either: on any builder
    the chain [.attr(a).attr(b)], and likewise
    [.pseudoClass(a).pseudoClass(b)], throws the duplicate error instead of
    appending a further fragment. *)
Theorem attr_pseudoClass_twice_throws :
  (forall (this : Selector) (a b : string),
     exec (Selector.attr a;; Selector.attr b) this
     = Throw (Error duplicate_message)) /\
  (forall (this : Selector) (a b : string),
     exec (Selector.pseudoClass a;; Selector.pseudoClass b) this
     = Throw (Error duplicate_message)) /\
  cssSelectorBuilder.attr "href" ;> Selector.attr "title"
  = Throw (Error duplicate_message) /\
  cssSelectorBuilder.pseudoClass "hover" ;> Selector.pseudoClass "focus"
  = Throw (Error duplicate_message).
Proof.
  split_and!; [| |vm_compute; reflexivity..].
  - intros this a b. apply (add_twice_throws Attr).
  - intros this a b. apply (add_twice_throws PseudoClass).
Qed.

(** C4: once a chain of calls on a builder contains an element, id or
    pseudo-element call, a further call of the same kind throws, at that
    call, an [Error] with the fixed message. *)
Theorem unique_part_twice_throws (l : list (category * string))
    (this s' : Selector) (c : category) (value : string) :
  unique c = true ->
  exec (calls l) this = Ok s' ->
  c ∈ l.*1 ->
  add c value s' = Throw (Error duplicate_message).
Proof.
  intros _ Hrun Hin. apply add_seen_throws.
  by apply (calls_inv l this s' Hrun).
Qed.

(** [element('a').element('b')] fails with the duplicate error. *)
Lemma unique_part_twice_throws_witness :
  cssSelectorBuilder.element "a" ;> Selector.element "b"
  = Throw (Error duplicate_message).
Proof.
  destruct (exec (calls [(Element, "a")]) new_Selector) as [s'|e] eqn:Hrun;
    [|vm_compute in Hrun; discriminate].
  change (cssSelectorBuilder.element "a")
    with (exec (calls [(Element, "a")]) new_Selector).
  rewrite Hrun. unfold call, exec. cbn.
  change (Selector.element "b" s') with (add Element "b" s').
  rewrite (unique_part_twice_throws [(Element, "a")] new_Selector s' Element "b");
    [reflexivity|reflexivity|exact Hrun|].
  apply list_elem_of_here.
Defined.

(** C5: the text of [combine(left, c, right)] is the text of [left], a
    space, [c], a space, and the text of [right]. *)
Theorem combine_stringify (left right : Selector) (c tl tr : string) :
  eval Selector.stringify left = Ok tl ->
  eval Selector.stringify right = Ok tr ->
  eval Selector.stringify (cssSelectorBuilder.combine left c right)
  = Ok (tl +:+ " " +:+ c +:+ " " +:+ tr).
Proof.
  intros [= <-] [= <-]. cbv [eval Selector.stringify]. f_equal.
  cbv [cssSelectorBuilder.combine parts new_Selector]. rewrite app_nil_l.
  rewrite <- !app_assoc, join_empty_app. f_equal.
  cbn [app]. by rewrite !join_empty_cons.
Qed.

(** [combine(element('div').id('main'), '+', element('table').id('data'))]
    stringifies to ['div#main + table#data']. *)
Lemma combine_stringify_witness :
  exists left right : Selector,
    cssSelectorBuilder.element "div" ;> Selector.id "main" = Ok left /\
    cssSelectorBuilder.element "table" ;> Selector.id "data" = Ok right /\
    eval Selector.stringify (cssSelectorBuilder.combine left "+" right)
    = Ok "div#main + table#data".
Proof.
  eexists; eexists. split; [vm_compute; reflexivity|].
  split; [vm_compute; reflexivity|].
  apply (combine_stringify _ _ "+" "div#main" "table#data"); reflexivity.
Defined.

(** C6: after any chain of calls, [stringify] returns what the builder
    held before followed by the fragments of the calls, in the order of the
    calls and with nothing between them; it leaves the builder as it is,
    returns the same string when called again, and the builder takes
    further calls exactly as if [stringify] had not been called. *)
Theorem stringify_spec (l : list (category * string)) (this s : Selector) :
  exec (calls l) this = Ok s ->
  Selector.stringify s
  = Ok (join "" (parts this) +:+ join "" (map fragment l), s) /\
  (first ← Selector.stringify; second ← Selector.stringify;
     mret (first, second)) s
  = Ok ((join "" (parts s), join "" (parts s)), s) /\
  (forall (c : category) (value : string),
     (Selector.stringify;; add c value) s = add c value s).
Proof.
  intros Hrun. apply calls_inv in Hrun as (Hparts & _ & _).
  split_and!; [|reflexivity|reflexivity].
  unfold Selector.stringify. by rewrite Hparts, join_empty_app.
Qed.

(** [element('a').attr('href').pseudoClass('focus')] on a fresh builder. *)
Lemma stringify_spec_witness :
  exists s : Selector,
    exec (calls [(Element, "a"); (Attr, "href"); (PseudoClass, "focus")])
      new_Selector = Ok s /\
    Selector.stringify s = Ok ("a[href]:focus", s).
Proof.
  eexists. split; [vm_compute; reflexivity|].
  refine (proj1 (stringify_spec
    [(Element, "a"); (Attr, "href"); (PseudoClass, "focus")]
    new_Selector _ _)).
  vm_compute; reflexivity.
Defined.

(** C10: every entry point of the facade but [element] first adds the empty
    element fragment, which leaves the text unchanged, and on the builder
    it returns every later [element] call throws the duplicate error. *)
Theorem facade_records_empty_element (c : category) (value : string) :
  c <> Element ->
  exists s : Selector,
    facade c value = exec (Selector.element "";; add c value) new_Selector /\
    facade c value = Ok s /\
    parts s = [""; fragment (c, value)] /\
    eval Selector.stringify s = Ok (fragment (c, value)) /\
    forall (l : list (category * string)) (s' : Selector) (name : string),
      exec (calls l) s = Ok s' ->
      Selector.element name s' = Throw (Error duplicate_message).
Proof.
  intros Hc.
  assert (facade c value
          = exec (Selector.element "";; add c value) new_Selector) as Hfacade
    by (by destruct c).
  assert (seen_key c ∉ (∅ : gset string) ∪ {[ "element" ]}) as Hfresh.
  { intros [Hin|Hin]%elem_of_union; [by apply elem_of_empty in Hin|].
    apply elem_of_singleton in Hin. by destruct c. }
  exists {| specificity := 0 + weight Element + weight c;
            parts := [""; fragment (c, value)];
            seen := ∅ ∪ {[ "element" ]} ∪ {[ seen_key c ]} |}.
  split_and!; [done| |done|..].
  - rewrite Hfacade. unfold exec, mbind, method_bind.
    change (Selector.element "") with (add Element "").
    rewrite add_unfold, bool_decide_eq_false_2 by apply not_elem_of_empty.
    rewrite add_unfold. cbn [seen parts specificity new_Selector seen_key app].
    by rewrite bool_decide_eq_false_2.
  - cbv [eval Selector.stringify parts]. by rewrite join_empty_cons.
  - intros l s' name Hrun.
    apply (add_seen_throws Element).
    destruct (calls_inv l _ s' Hrun) as (_ & Hsub & _).
    apply Hsub. cbn [seen seen_key].
    apply elem_of_union_l, elem_of_union_r. by apply elem_of_singleton.
Qed.

(** [id('main')] holds the empty element fragment, and [.element('div')]
    on it throws. *)
Lemma facade_records_empty_element_witness :
  exists s : Selector,
    cssSelectorBuilder.id "main" = Ok s /\
    parts s = [""; "#main"] /\
    Selector.element "div" s = Throw (Error duplicate_message).
Proof.
  destruct (facade_records_empty_element Id "main") as (s & _ & Hs & Hparts & _ & Hel).
  - discriminate.
  - exists s. split_and!; [exact Hs|exact Hparts|].
    apply (Hel [] s "div"). reflexivity.
Defined.

(** The examples of the documentation.  The first operand of its
    [combine] example calls [class] twice and throws; the chain with
    [attr] and [pseudoClass] once each gives the documented text; a blank
    combinator stands between two blanks. *)
Example documented_operand_throws :
  cssSelectorBuilder.element "div" ;> Selector.id "main"
    ;> Selector.class "container" ;> Selector.class "draggable"
  = Throw (Error duplicate_message).
Proof. vm_compute; reflexivity. Qed.

Example documented_attr_chain :
  cssSelectorBuilder.element "a" ;> Selector.attr (JSON.text "href$='.png'")
    ;> Selector.pseudoClass "focus" ;>> Selector.stringify
  = Ok (JSON.text "a[href$='.png']:focus").
Proof. vm_compute; reflexivity. Qed.

Example documented_blank_combinator :
  (tr ← cssSelectorBuilder.element "tr" ;> Selector.pseudoClass "nth-of-type(even)";
   td ← cssSelectorBuilder.element "td" ;> Selector.pseudoClass "nth-of-type(even)";
   eval Selector.stringify (cssSelectorBuilder.combine tr " " td))
  = Ok "tr:nth-of-type(even)   td:nth-of-type(even)".
Proof. vm_compute; reflexivity. Qed.

(** ** getJSON and fromJSON *)

Section ObjectFacts.

Context {number : Type}.
Implicit Types (p : prototype number) (v x : value number) (key : string).
Implicit Types (properties acc : list (string * value number)).

Lemma define_own_fresh key v properties :
  key ∉ properties.*1 -> define_own key v properties = properties ++ [(key, v)].
Proof.
  induction properties as [|[k x] properties IH]; intros Hfresh; [done|].
  change (key ∉ k :: properties.*1) in Hfresh.
  apply not_elem_of_cons in Hfresh as [Hne Hfresh].
  cbn [define_own]. rewrite bool_decide_eq_false_2 by done.
  by rewrite IH.
Qed.

(** A key that the object does not own and that is not [__proto__]
    becomes its last own property; the prototype stays. *)
Lemma Set_fresh p acc key v :
  key ∉ acc.*1 -> key <> "__proto__" ->
  Set_ {| proto := p; own := acc |} key v
  = {| proto := p; own := acc ++ [(key, v)] |}.
Proof.
  intros Hfresh Hkey. unfold Set_. cbn [own proto].
  rewrite (bool_decide_eq_false_2 (key ∈ acc.*1)) by done.
  rewrite (bool_decide_eq_false_2 (key = "__proto__")) by done.
  cbn [andb]. by rewrite define_own_fresh.
Qed.

Lemma assign_fresh p properties : forall acc,
  NoDup (acc.*1 ++ properties.*1) ->
  "__proto__" ∉ properties.*1 ->
  foldl (fun this kv => Set_ this kv.1 kv.2)
    {| proto := p; own := acc |} properties
  = {| proto := p; own := acc ++ properties |}.
Proof.
  induction properties as [|[k x] properties IH]; intros acc Hnodup Hkey.
  - by rewrite app_nil_r.
  - change (NoDup (acc.*1 ++ k :: properties.*1)) in Hnodup.
    change ("__proto__" ∉ k :: properties.*1) in Hkey.
    apply not_elem_of_cons in Hkey as [Hne Hkey].
    cbn [foldl fst snd]. rewrite Set_fresh.
    + rewrite IH; [by rewrite <- app_assoc| |done].
      rewrite fmap_app. cbn [fmap list_fmap fst]. by rewrite <- app_assoc.
    + apply NoDup_app in Hnodup as (_ & Hdisj & _).
      intros Hin. apply (Hdisj k Hin), list_elem_of_here.
    + done.
Qed.

End ObjectFacts.

(** ** The texts that [JSON.parse] takes

    [JSON.parse] reads a text exactly when the grammar derives it. *)

Section Texts.

Import JSON.

Lemma string_app_cons c (s t : string) : String c s +:+ t = String c (s +:+ t).
Proof. reflexivity. Qed.

Lemma string_app_nil_l (s : string) : "" +:+ s = s.
Proof. reflexivity. Qed.

Lemma string_app_length (s t : string) :
  String.length (s +:+ t) = String.length s + String.length t.
Proof.
  induction s as [|c s IH]; [reflexivity|].
  rewrite string_app_cons. cbn [String.length]. by rewrite IH.
Qed.

(** *** The classes of characters *)

Lemma is_digit_digit c : is_digit c = bool_decide (Grammar.digit c).
Proof. destruct c as [[] [] [] [] [] [] [] []]; vm_compute; reflexivity. Qed.

Lemma is_ws_cases c :
  is_ws c = true <-> c = " "%char \/ c = "010"%char \/ c = "013"%char \/ c = "009"%char.
Proof.
  unfold is_ws. rewrite !orb_true_iff, !bool_decide_eq_true. tauto.
Qed.

Lemma hex_value_hex c : is_Some (hex_value c) <-> Grammar.hex c.
Proof.
  destruct c as [[] [] [] [] [] [] [] []];
    (split; [intros [n Hn]; vm_compute in Hn; try discriminate Hn;
             apply (bool_decide_unpack _); vm_compute; exact I
            |intros Hc; apply (bool_decide_pack _) in Hc; vm_compute in Hc;
             try (exfalso; exact Hc); vm_compute; eauto]).
Qed.

Lemma unescape_escape c :
  is_Some (unescape c) <-> c = dquote \/ Grammar.one_of "\/bfnrt" c.
Proof.
  destruct c as [[] [] [] [] [] [] [] []];
    (split; [intros [n Hn]; vm_compute in Hn; try discriminate Hn;
             apply (bool_decide_unpack _); vm_compute; exact I
            |intros Hc; apply (bool_decide_pack _) in Hc; vm_compute in Hc;
             try (exfalso; exact Hc); vm_compute; eauto]).
Qed.


(** *** White space *)

Lemma skip_ws_app w s : Grammar.ws w -> skip_ws (w +:+ s) = skip_ws s.
Proof. induction 1; [reflexivity|..]; rewrite string_app_cons; exact IHws. Qed.

Lemma skip_ws_ws s : exists w, Grammar.ws w /\ s = w +:+ skip_ws s.
Proof.
  induction s as [|c s IH].
  - exists "". split; [constructor|reflexivity].
  - destruct IH as (w & Hw & IH). cbn [skip_ws]. destruct (is_ws c) eqn:Hc.
    + exists (String c w). rewrite string_app_cons, <- IH. split; [|reflexivity].
      apply is_ws_cases in Hc as [-> | [-> | [-> | ->]]]; by constructor.
    + exists "". split; [constructor|reflexivity].
Qed.

Lemma skip_ws_head s c rest : skip_ws s = String c rest -> is_ws c = false.
Proof.
  induction s as [|a s IH]; [discriminate|]. cbn [skip_ws].
  destruct (is_ws a) eqn:Ha; [exact IH|]. by intros [= <- _].
Qed.

Lemma skip_ws_stays c s : is_ws c = false -> skip_ws (String c s) = String c s.
Proof. intros Hc. cbn [skip_ws]. by rewrite Hc. Qed.

Lemma skip_ws_nil s : skip_ws s = "" <-> Grammar.ws s.
Proof.
  split.
  - intros Hs. destruct (skip_ws_ws s) as (w & Hw & Heq).
    rewrite Hs, string_app_nil_r in Heq. by subst.
  - intros Hs. rewrite <- (string_app_nil_r s). by rewrite skip_ws_app.
Qed.

Lemma strip_app p s r : strip p s = Some r <-> s = p +:+ r.
Proof.
  revert s. induction p as [|a p IH]; intros s.
  - cbn [strip]. rewrite string_app_nil_l. split; [by intros [= ->]|by intros ->].
  - destruct s as [|b s]; cbn [strip]; rewrite string_app_cons; [split; discriminate|].
    case_bool_decide as Hab.
    + subst b. rewrite IH. split; [by intros ->|by intros [= ->]].
    + split; [discriminate|]. intros [= -> _]. done.
Qed.

(** *** Numbers *)

Lemma span_digits_app s :
  s = (span_digits s).1 +:+ (span_digits s).2 /\ no_digit (span_digits s).2.
Proof.
  induction s as [|c s [IH1 IH2]]; [done|]. cbn [span_digits].
  destruct (is_digit c) eqn:Hc.
  - destruct (span_digits s) as [ds rest]. cbn [fst snd] in *.
    rewrite string_app_cons, <- IH1. done.
  - cbn [fst snd]. split; [reflexivity|exact Hc].
Qed.

Lemma span_digits_digits s ds rest :
  span_digits s = (ds, rest) -> ds <> "" -> Grammar.digits ds.
Proof.
  revert ds rest. induction s as [|c s IH]; intros ds rest; cbn [span_digits].
  - by intros [= <- <-].
  - destruct (is_digit c) eqn:Hc; [|by intros [= <- <-]].
    destruct (span_digits s) as [ds' rest'] eqn:Hs. intros [= <- <-] _.
    rewrite is_digit_digit in Hc. apply bool_decide_eq_true_1 in Hc.
    destruct ds' as [|a ds']; [by constructor|].
    apply Grammar.digits_more; [done|]. by apply (IH _ rest').
Qed.

Lemma span_digits_read ds rest :
  Grammar.digits ds -> no_digit rest -> span_digits (ds +:+ rest) = (ds, rest).
Proof.
  intros Hds Hrest. induction Hds as [c Hc|c s Hc Hs IH];
    rewrite string_app_cons; cbn [span_digits];
    rewrite is_digit_digit, (bool_decide_eq_true_2 _ Hc).
  - rewrite string_app_nil_l. destruct rest as [|a rest]; [done|].
    cbn [span_digits]. cbn [no_digit] in Hrest. by rewrite Hrest.
  - by rewrite IH.
Qed.

Lemma digits_not_nil ds : Grammar.digits ds -> ds <> "".
Proof. by destruct 1. Qed.

Lemma digits_head ds :
  Grammar.digits ds -> exists c ds', ds = String c ds' /\ Grammar.digit c.
Proof. destruct 1; eauto. Qed.


(** A character known to be one of a few is taken apart into one case for
    each. *)
Ltac one_of_cases H :=
  unfold Grammar.digit, Grammar.onenine, Grammar.hex, Grammar.one_of in H;
  cbn [String.list_ascii_of_string] in H;
  repeat (apply elem_of_cons in H as [->|H]);
  [..|by apply elem_of_nil in H].

Lemma onenine_digit c : Grammar.onenine c -> Grammar.digit c /\ c <> "0"%char.
Proof.
  intros Hc. one_of_cases Hc;
    (split; [apply (bool_decide_unpack _); vm_compute; exact I|discriminate]).
Qed.

Lemma digit_onenine c : Grammar.digit c -> c <> "0"%char -> Grammar.onenine c.
Proof.
  intros Hc Hne. one_of_cases Hc; try done;
    apply (bool_decide_unpack _); vm_compute; exact I.
Qed.

Lemma scan_integer_sound s ds rest :
  scan_integer s = Some (ds, rest) ->
  s = ds +:+ rest /\ Grammar.integer ds /\ Grammar.integer (String "-" ds).
Proof.
  unfold scan_integer. destruct (span_digits_app s) as [Happ _].
  destruct (span_digits s) as [ds0 rest0] eqn:Hspan. cbn [fst snd] in Happ.
  destruct ds0 as [|c ds']; [discriminate|].
  pose proof (span_digits_digits _ _ _ Hspan ltac:(discriminate)) as Hds.
  destruct (bool_decide (c = "0"%char) && negb (bool_decide (ds' = ""))) eqn:Hzero;
    [discriminate|].
  intros [= <- <-]. split; [done|].
  inversion Hds as [a Ha|a ds'' Ha Hds']; subst.
  - split; [by apply Grammar.integer_digit|by apply Grammar.integer_minus_digit].
  - apply andb_false_iff in Hzero as [Hzero|Hzero].
    + apply bool_decide_eq_false_1 in Hzero.
      split; [apply Grammar.integer_digits|apply Grammar.integer_minus_digits];
        auto using digit_onenine.
    + apply negb_false_iff, bool_decide_eq_true_1 in Hzero. subst.
      split; [by apply Grammar.integer_digit|by apply Grammar.integer_minus_digit].
Qed.

Lemma scan_fraction_sound s ds rest :
  scan_fraction s = Some (ds, rest) ->
  exists f, Grammar.fraction f /\ s = f +:+ rest.
Proof.
  unfold scan_fraction. destruct s as [|c s].
  - intros [= <- <-]. exists "". split; [constructor|reflexivity].
  - case_bool_decide as Hc.
    + subst c. destruct (span_digits_app s) as [Happ _].
      destruct (span_digits s) as [ds0 rest0] eqn:Hspan. cbn [fst snd] in Happ.
      case_bool_decide as Hnil; [discriminate|]. intros [= <- <-].
      exists (String "." ds0). split.
      * constructor. by apply (span_digits_digits _ _ _ Hspan).
      * by rewrite string_app_cons, <- Happ.
    + intros [= <- <-]. exists "". split; [constructor|reflexivity].
Qed.

Lemma scan_sign_sound s neg rest :
  scan_sign s = (neg, rest) -> exists sg, Grammar.sign sg /\ s = sg +:+ rest.
Proof.
  unfold scan_sign. destruct s as [|c s].
  - intros [= <- <-]. exists "". split; [constructor|reflexivity].
  - repeat case_bool_decide; subst; intros [= <- <-].
    + exists "-". split; [constructor|reflexivity].
    + exists "+". split; [constructor|reflexivity].
    + exists "". split; [constructor|reflexivity].
Qed.

Lemma scan_exponent_sound s n rest :
  scan_exponent s = Some (n, rest) ->
  exists e, Grammar.exponent e /\ s = e +:+ rest.
Proof.
  unfold scan_exponent. destruct s as [|c s].
  - intros [= <- <-]. exists "". split; [constructor|reflexivity].
  - destruct (bool_decide (c = "e"%char) || bool_decide (c = "E"%char)) eqn:Hc.
    + destruct (scan_sign s) as [neg s'] eqn:Hsign.
      apply scan_sign_sound in Hsign as (sg & Hsg & ->).
      destruct (span_digits_app s') as [Happ _].
      destruct (span_digits s') as [ds0 rest0] eqn:Hspan. cbn [fst snd] in Happ.
      destruct (decide (ds0 = "")) as [Hnil|Hnil].
      { by rewrite bool_decide_eq_true_2. }
      rewrite bool_decide_eq_false_2 by done. intros [= _ <-].
      pose proof (span_digits_digits _ _ _ Hspan Hnil) as Hds.
      apply orb_true_iff in Hc as [Hc|Hc]; apply bool_decide_eq_true_1 in Hc;
        subst c.
      * exists (String "e" (sg +:+ ds0)). split; [by constructor|].
        by rewrite string_app_cons, string_app_assoc, <- Happ.
      * exists (String "E" (sg +:+ ds0)). split; [by constructor|].
        by rewrite string_app_cons, string_app_assoc, <- Happ.
    + intros [= <- <-]. exists "". split; [constructor|reflexivity].
Qed.

Lemma parse_number_sound s x rest :
  parse_number s = Some (x, rest) ->
  exists t, Grammar.number t /\ s = t +:+ rest.
Proof.
  unfold parse_number.
  destruct (scan_minus s) as [neg s1] eqn:Hminus.
  destruct (scan_integer s1) as [[int s2]|] eqn:Hint; [|discriminate].
  cbn [mbind option_bind].
  destruct (scan_fraction s2) as [[frac s3]|] eqn:Hfrac; [|discriminate].
  cbn [mbind option_bind].
  destruct (scan_exponent s3) as [[exp s4]|] eqn:Hexp; [|discriminate].
  cbn [mbind option_bind]. intros [= _ <-].
  apply scan_integer_sound in Hint as (-> & Hint & Hminus_int).
  apply scan_fraction_sound in Hfrac as (f & Hf & ->).
  apply scan_exponent_sound in Hexp as (e & He & ->).
  unfold scan_minus in Hminus. destruct s as [|c s].
  - injection Hminus as <- Hs. exists (int +:+ f +:+ e).
    split; [by constructor|]. by rewrite Hs, !string_app_assoc.
  - case_bool_decide as Hc; injection Hminus as <- Hs.
    + subst c s. exists (String "-" int +:+ f +:+ e).
      split; [by constructor|]. by rewrite !string_app_cons, !string_app_assoc.
    + exists (int +:+ f +:+ e).
      split; [by constructor|]. by rewrite Hs, !string_app_assoc.
Qed.


Lemma digit_plain c :
  Grammar.digit c ->
  c <> "-"%char /\ c <> "+"%char /\ c <> "."%char /\ c <> "e"%char /\ c <> "E"%char.
Proof. intros Hc. one_of_cases Hc; by repeat split. Qed.

Lemma ends_number_no_digit rest : ends_number rest -> no_digit rest.
Proof. destruct rest; [done|]. by intros [? _]. Qed.

Lemma exponent_tail e rest :
  Grammar.exponent e -> ends_number rest ->
  no_digit (e +:+ rest) /\ no_point (e +:+ rest).
Proof.
  intros He Hrest. destruct He; [|by rewrite string_app_cons..].
  rewrite string_app_nil_l. split; [by apply ends_number_no_digit|].
  destruct rest; [done|]. by destruct Hrest as (_ & ? & _).
Qed.

Lemma fraction_tail f tail :
  Grammar.fraction f -> no_digit tail -> no_digit (f +:+ tail).
Proof.
  intros Hf Htail.
  destruct Hf; [by rewrite string_app_nil_l|by rewrite string_app_cons].
Qed.

Lemma scan_integer_read i tail :
  Grammar.integer i -> no_digit tail ->
  exists neg ds,
    scan_minus (i +:+ tail) = (neg, ds +:+ tail)
    /\ scan_integer (ds +:+ tail) = Some (ds, tail).
Proof.
  intros Hi Htail.
  assert (Hone : forall c, Grammar.digit c ->
            scan_integer (String c "" +:+ tail) = Some (String c "", tail)).
  { intros c Hc. unfold scan_integer.
    rewrite span_digits_read by (done || by constructor).
    by rewrite (bool_decide_eq_true_2 ("" = "")), andb_false_r. }
  assert (Hmore : forall c ds, Grammar.onenine c -> Grammar.digits ds ->
            scan_integer (String c ds +:+ tail) = Some (String c ds, tail)).
  { intros c ds Hc Hds. apply onenine_digit in Hc as [Hc Hzero]. unfold scan_integer.
    rewrite span_digits_read by (done || by constructor).
    by rewrite (bool_decide_eq_false_2 (c = "0"%char)). }
  destruct Hi as [c Hc|c ds Hc Hds|c Hc|c ds Hc Hds].
  - exists false, (String c ""). split; [|by apply Hone].
    rewrite string_app_cons. unfold scan_minus.
    apply digit_plain in Hc as [Hc _]. by rewrite bool_decide_eq_false_2.
  - exists false, (String c ds). split; [|by apply Hmore].
    rewrite string_app_cons. unfold scan_minus.
    apply onenine_digit in Hc as [Hc _].
    apply digit_plain in Hc as [Hc _]. by rewrite bool_decide_eq_false_2.
  - exists true, (String c ""). split; [reflexivity|by apply Hone].
  - exists true, (String c ds). split; [reflexivity|by apply Hmore].
Qed.

Lemma scan_fraction_read f tail :
  Grammar.fraction f -> no_digit tail -> no_point tail ->
  exists ds, scan_fraction (f +:+ tail) = Some (ds, tail).
Proof.
  intros Hf Hdigit Hpoint. destruct Hf as [|ds Hds].
  - exists "". rewrite string_app_nil_l. unfold scan_fraction.
    destruct tail as [|c tail]; [done|].
    cbn [no_point] in Hpoint. by rewrite bool_decide_eq_false_2.
  - exists ds. rewrite string_app_cons. unfold scan_fraction.
    rewrite (bool_decide_eq_true_2 ("."%char = "."%char)) by done.
    rewrite span_digits_read by done.
    by rewrite bool_decide_eq_false_2 by by apply digits_not_nil.
Qed.

Lemma scan_sign_read sg ds rest :
  Grammar.sign sg -> Grammar.digits ds ->
  exists neg, scan_sign ((sg +:+ ds) +:+ rest) = (neg, ds +:+ rest).
Proof.
  intros Hsg Hds. destruct Hsg.
  - exists false. rewrite string_app_nil_l.
    apply digits_head in Hds as (c & ds' & -> & Hc).
    rewrite string_app_cons. unfold scan_sign.
    apply digit_plain in Hc as (Hminus & Hplus & _).
    by rewrite !bool_decide_eq_false_2.
  - by exists false.
  - by exists true.
Qed.

Lemma scan_exponent_read e rest :
  Grammar.exponent e -> ends_number rest ->
  exists n, scan_exponent (e +:+ rest) = Some (n, rest).
Proof.
  intros He Hrest.
  assert (Hdigits : forall c sg ds,
            bool_decide (c = "e"%char) || bool_decide (c = "E"%char) = true ->
            Grammar.sign sg -> Grammar.digits ds ->
            exists n, scan_exponent (String c (sg +:+ ds) +:+ rest) = Some (n, rest)).
  { intros c sg ds Hc Hsg Hds. rewrite string_app_cons. unfold scan_exponent. rewrite Hc.
    destruct (scan_sign_read sg ds rest Hsg Hds) as [neg ->].
    rewrite span_digits_read by (done || by apply ends_number_no_digit).
    rewrite bool_decide_eq_false_2 by by apply digits_not_nil. eauto. }
  destruct He as [|sg ds Hsg Hds|sg ds Hsg Hds]; [|by apply Hdigits..].
  exists 0%Z. rewrite string_app_nil_l. unfold scan_exponent.
  destruct rest as [|c rest]; [done|]. destruct Hrest as (_ & _ & He & HE).
  by rewrite !bool_decide_eq_false_2.
Qed.

Lemma parse_number_read t rest :
  Grammar.number t -> ends_number rest ->
  exists x, parse_number (t +:+ rest) = Some (x, rest).
Proof.
  intros [i f e Hi Hf He] Hrest.
  destruct (exponent_tail e rest He Hrest) as [Hdigit Hpoint].
  destruct (scan_integer_read i (f +:+ e +:+ rest) Hi) as (neg & ds & Hminus & Hint);
    [by apply fraction_tail|].
  destruct (scan_fraction_read f (e +:+ rest) Hf Hdigit Hpoint) as [frac Hfrac].
  destruct (scan_exponent_read e rest He Hrest) as [n Hexp].
  unfold parse_number. rewrite !string_app_assoc, Hminus, Hint. cbn [mbind option_bind].
  rewrite Hfrac. cbn [mbind option_bind]. rewrite Hexp. cbn [mbind option_bind].
  eauto.
Qed.

Lemma number_head t :
  Grammar.number t ->
  exists c t', t = String c t' /\ (c = "-"%char \/ Grammar.digit c).
Proof.
  intros [i f e Hi _ _].
  destruct Hi as [c Hc|c ds Hc Hds|c Hc|c ds Hc Hds]; rewrite string_app_cons;
    eexists _, _; (split; [reflexivity|]); auto.
  right. by apply onenine_digit in Hc as [? _].
Qed.

(** *** Strings *)

Lemma parse_chars_sound n : forall s str rest,
  String.length s <= n ->
  parse_chars s = Some (str, rest) ->
  exists t, Grammar.characters t /\ s = t +:+ String dquote rest.
Proof.
  induction n as [|n IH]; intros s str rest Hlen; (destruct s as [|c s]; [discriminate|]).
  { cbn [String.length] in Hlen. lia. }
  cbn [String.length] in Hlen. cbn [parse_chars].
  destruct (decide (c = dquote)) as [->|Hquote].
  { rewrite bool_decide_eq_true_2 by done. intros [= _ <-].
    exists "". split; [constructor|reflexivity]. }
  rewrite (bool_decide_eq_false_2 (c = dquote)) by done.
  destruct (decide (c = backslash)) as [->|Hback].
  - rewrite bool_decide_eq_true_2 by done.
    destruct s as [|e s]; [discriminate|]. cbn [String.length] in Hlen.
    destruct (unescape e) as [c'|] eqn:He.
    + destruct (parse_chars s) as [[str' rest']|] eqn:Hs; [|discriminate].
      cbn [mbind option_bind]. intros [= _ <-].
      apply IH in Hs as (t & Ht & ->); [|lia].
      exists (String backslash (String e "") +:+ t). split; [|reflexivity].
      constructor; [|done]. apply Grammar.character_escape.
      apply unescape_escape. by rewrite He.
    + destruct s as [|h1 [|h2 [|h3 [|h4 s]]]]; try discriminate.
      cbn [String.length] in Hlen.
      case_bool_decide as Hu; [subst e|discriminate].
      destruct (hex_value h1) as [a|] eqn:H1; [|discriminate].
      destruct (hex_value h2) as [b|] eqn:H2; [|discriminate].
      destruct (hex_value h3) as [c|] eqn:H3; [|discriminate].
      destruct (hex_value h4) as [d|] eqn:H4; [|discriminate].
      cbn [mbind option_bind].
      destruct (parse_chars s) as [[str' rest']|] eqn:Hs; [|discriminate].
      cbn [mbind option_bind]. intros [= _ <-].
      apply IH in Hs as (t & Ht & ->); [|lia].
      exists (String backslash
                (String "u" (String h1 (String h2 (String h3 (String h4 "")))))
              +:+ t).
      split; [|reflexivity].
      constructor; [|done].
      apply Grammar.character_code_unit; apply hex_value_hex; by eexists.
  - rewrite (bool_decide_eq_false_2 (c = backslash)) by done.
    case_bool_decide as Hcontrol; [discriminate|].
    destruct (parse_chars s) as [[str' rest']|] eqn:Hs; [|discriminate].
    cbn [mbind option_bind]. intros [= _ <-].
    apply IH in Hs as (t & Ht & ->); [|lia].
    exists (String c "" +:+ t). split; [|reflexivity].
    constructor; [|done]. apply Grammar.character_plain; [lia|done..].
Qed.

Lemma parse_chars_read t rest :
  Grammar.characters t ->
  exists str, parse_chars (t +:+ String dquote rest) = Some (str, rest).
Proof.
  induction 1 as [|c t Hc Ht [str IH]].
  - exists "". rewrite string_app_nil_l. cbn [parse_chars].
    by rewrite bool_decide_eq_true_2.
  - rewrite string_app_assoc.
    destruct Hc as [c Hcontrol Hquote Hback|c Hc|h1 h2 h3 h4 H1 H2 H3 H4].
    + exists (String c str). rewrite string_app_cons, string_app_nil_l. cbn [parse_chars].
      rewrite !bool_decide_eq_false_2 by (done || lia).
      rewrite IH. reflexivity.
    + apply unescape_escape in Hc as [c' Hc].
      exists (String c' str). rewrite !string_app_cons, string_app_nil_l.
      cbn [parse_chars].
      rewrite bool_decide_eq_false_2 by done.
      rewrite bool_decide_eq_true_2 by done.
      rewrite Hc, IH. reflexivity.
    + apply hex_value_hex in H1 as [a H1], H2 as [b H2], H3 as [c H3], H4 as [d H4].
      exists (String (code_unit (4096 * a + 256 * b + 16 * c + d)) str).
      rewrite !string_app_cons, string_app_nil_l. cbn [parse_chars].
      rewrite bool_decide_eq_false_2 by done.
      rewrite bool_decide_eq_true_2 by done.
      change (unescape "u") with (@None ascii). cbn match.
      rewrite bool_decide_eq_true_2 by done.
      rewrite H1, H2, H3, H4. cbn [mbind option_bind]. rewrite IH. reflexivity.
Qed.


(** *** Values *)

Ltac flat :=
  repeat first
    [rewrite string_app_assoc | rewrite string_app_cons | rewrite string_app_nil_l].

Ltac lengths H :=
  rewrite ?string_app_length in H; cbn [String.length] in H.

Lemma parse_sound fuel :
  (forall s v rest,
      parse_value fuel s = Some (v, rest) ->
      exists w t, Grammar.ws w /\ Grammar.value t /\ s = w +:+ t +:+ rest)
  /\ (forall s vs rest,
      parse_elements fuel s = Some (vs, rest) ->
      exists es, Grammar.elements es /\ s = es +:+ String "]" rest)
  /\ (forall s kvs rest,
      parse_members fuel s = Some (kvs, rest) ->
      exists ms, Grammar.members ms /\ s = ms +:+ String "}" rest).
Proof.
  induction fuel as [|fuel (IHv & IHe & IHm)]; [by split_and!|].
  split_and!.
  - intros s v rest. cbn [parse_value].
    destruct (skip_ws_ws s) as (w & Hw & Hs).
    destruct (skip_ws s) as [|c r]; [discriminate|].
    rewrite Hs. clear Hs. intros Hparse. exists w.
    cut (exists t, Grammar.value t /\ String c r = t +:+ rest).
    { intros (t & Ht & ->). eauto. }
    revert Hparse.
    destruct (decide (c = "n"%char)) as [->|Hn].
    { rewrite bool_decide_eq_true_2 by done.
      destruct (strip "ull" r) as [r'|] eqn:Hr; [|discriminate].
      intros [= _ <-]. apply strip_app in Hr as ->.
      exists "null". split; [apply Grammar.value_null|reflexivity]. }
    rewrite (bool_decide_eq_false_2 (c = "n"%char)) by done.
    destruct (decide (c = "t"%char)) as [->|Ht].
    { rewrite bool_decide_eq_true_2 by done.
      destruct (strip "rue" r) as [r'|] eqn:Hr; [|discriminate].
      intros [= _ <-]. apply strip_app in Hr as ->.
      exists "true". split; [apply Grammar.value_true|reflexivity]. }
    rewrite (bool_decide_eq_false_2 (c = "t"%char)) by done.
    destruct (decide (c = "f"%char)) as [->|Hf].
    { rewrite bool_decide_eq_true_2 by done.
      destruct (strip "alse" r) as [r'|] eqn:Hr; [|discriminate].
      intros [= _ <-]. apply strip_app in Hr as ->.
      exists "false". split; [apply Grammar.value_false|reflexivity]. }
    rewrite (bool_decide_eq_false_2 (c = "f"%char)) by done.
    destruct (decide (c = dquote)) as [->|Hq].
    { rewrite bool_decide_eq_true_2 by done.
      destruct (parse_chars r) as [[str r']|] eqn:Hr; [|discriminate].
      intros [= _ <-].
      apply (parse_chars_sound _ _ _ _ (le_n _)) in Hr as (t & Ht' & ->).
      exists (String dquote (t +:+ String dquote "")).
      split; [by apply Grammar.value_string, Grammar.string_quoted|]. by flat. }
    rewrite (bool_decide_eq_false_2 (c = dquote)) by done.
    destruct (decide (c = "["%char)) as [->|Ha].
    { rewrite bool_decide_eq_true_2 by done.
      destruct (strip "]" (skip_ws r)) as [r'|] eqn:Hr.
      - intros [= _ <-]. apply strip_app in Hr.
        destruct (skip_ws_ws r) as (w' & Hw' & Hr'). rewrite Hr in Hr'. subst r.
        exists ("[" +:+ w' +:+ "]").
        split; [by apply Grammar.value_empty_array|]. by flat.
      - destruct (parse_elements fuel r) as [[vs r']|] eqn:Hes; [|discriminate].
        intros [= _ <-]. apply IHe in Hes as (es & Hes & ->).
        exists ("[" +:+ es +:+ "]"). split; [by apply Grammar.value_array|]. by flat. }
    rewrite (bool_decide_eq_false_2 (c = "["%char)) by done.
    destruct (decide (c = "{"%char)) as [->|Ho].
    { rewrite bool_decide_eq_true_2 by done.
      destruct (strip "}" (skip_ws r)) as [r'|] eqn:Hr.
      - intros [= _ <-]. apply strip_app in Hr.
        destruct (skip_ws_ws r) as (w' & Hw' & Hr'). rewrite Hr in Hr'. subst r.
        exists ("{" +:+ w' +:+ "}").
        split; [by apply Grammar.value_empty_object|]. by flat.
      - destruct (parse_members fuel r) as [[kvs r']|] eqn:Hms; [|discriminate].
        intros [= _ <-]. apply IHm in Hms as (ms & Hms & ->).
        exists ("{" +:+ ms +:+ "}"). split; [by apply Grammar.value_object|]. by flat. }
    rewrite (bool_decide_eq_false_2 (c = "{"%char)) by done.
    destruct (parse_number (String c r)) as [[x r']|] eqn:Hr; [|discriminate].
    intros [= _ <-]. apply parse_number_sound in Hr as (t & Ht' & ->).
    exists t. split; [by apply Grammar.value_number|done].
  - intros s vs rest. cbn [parse_elements].
    destruct (parse_value fuel s) as [[v r1]|] eqn:Hv; [|discriminate].
    cbn [mbind option_bind].
    apply IHv in Hv as (w1 & t & Hw1 & Ht & ->).
    destruct (skip_ws_ws r1) as (w2 & Hw2 & Hr1).
    destruct (skip_ws r1) as [|c r2]; [discriminate|]. subst r1.
    pose proof (Grammar.element_value _ _ _ Hw1 Ht Hw2) as He.
    case_bool_decide as Hc; [subst c|].
    + destruct (parse_elements fuel r2) as [[vs' r3]|] eqn:Hes; [|discriminate].
      cbn [mbind option_bind]. intros [= _ <-].
      apply IHe in Hes as (es & Hes & ->).
      exists ((w1 +:+ t +:+ w2) +:+ "," +:+ es).
      split; [by apply Grammar.elements_more|]. by flat.
    + case_bool_decide as Hc'; [subst c|discriminate]. intros [= _ <-].
      exists (w1 +:+ t +:+ w2). split; [by apply Grammar.elements_one|]. by flat.
  - intros s kvs rest. cbn [parse_members].
    destruct (skip_ws_ws s) as (w1 & Hw1 & Hs).
    destruct (strip (String dquote "") (skip_ws s)) as [r1|] eqn:H1; [|discriminate].
    apply strip_app in H1. rewrite H1 in Hs. clear H1. subst s.
    cbn [mbind option_bind].
    destruct (parse_chars r1) as [[k r2]|] eqn:H2; [|discriminate].
    apply (parse_chars_sound _ _ _ _ (le_n _)) in H2 as (t & Ht & ->).
    cbn [mbind option_bind].
    destruct (skip_ws_ws r2) as (w2 & Hw2 & Hr2).
    destruct (strip ":" (skip_ws r2)) as [r3|] eqn:H3; [|discriminate].
    apply strip_app in H3. rewrite H3 in Hr2. clear H3. subst r2.
    cbn [mbind option_bind].
    destruct (parse_value fuel r3) as [[v r4]|] eqn:H4; [|discriminate].
    apply IHv in H4 as (w3 & tv & Hw3 & Htv & ->).
    cbn [mbind option_bind].
    destruct (skip_ws_ws r4) as (w4 & Hw4 & Hr4).
    destruct (skip_ws r4) as [|c r5]; [discriminate|]. subst r4.
    assert (Hm : Grammar.member
              (w1 +:+ String dquote (t +:+ String dquote "") +:+ w2 +:+ ":"
               +:+ (w3 +:+ tv +:+ w4))).
    { apply Grammar.member_pair;
        first [done|by apply Grammar.string_quoted|by apply Grammar.element_value]. }
    case_bool_decide as Hc; [subst c|].
    + destruct (parse_members fuel r5) as [[kvs' r6]|] eqn:Hms; [|discriminate].
      cbn [mbind option_bind]. intros [= _ <-].
      apply IHm in Hms as (ms & Hms & ->).
      eexists (_ +:+ "," +:+ ms).
      split; [by apply Grammar.members_more|]. by flat.
    + case_bool_decide as Hc'; [subst c|discriminate]. intros [= _ <-].
      eexists. split; [by apply Grammar.members_one|]. by flat.
Qed.


Scheme value_mut := Minimality for Grammar.value Sort Prop
  with members_mut := Minimality for Grammar.members Sort Prop
  with member_mut := Minimality for Grammar.member Sort Prop
  with elements_mut := Minimality for Grammar.elements Sort Prop
  with element_mut := Minimality for Grammar.element Sort Prop.

Combined Scheme grammar_ind
  from value_mut, members_mut, member_mut, elements_mut, element_mut.

Lemma value_start_plain c :
  value_start c -> is_ws c = false /\ c <> "]"%char /\ c <> "}"%char.
Proof.
  intros [->|[->|[->|[->|[Hc|[->|[->| ->]]]]]]]; try by split_and!.
  one_of_cases Hc; by split_and!.
Qed.

Lemma value_head t :
  Grammar.value t -> exists c t', t = String c t' /\ value_start c.
Proof.
  unfold value_start.
  destruct 1 as [w Hw|ms Hms|w Hw|es Hes|s Hs|s Hs| | |];
    try (eexists _, _; split; [reflexivity|]; tauto).
  - destruct Hs. eexists _, _; split; [reflexivity|]; tauto.
  - apply number_head in Hs as (c & t' & -> & Hc).
    eexists _, _; split; [reflexivity|]; tauto.
Qed.

Lemma delimited_ends_number rest : delimited rest -> ends_number rest.
Proof.
  destruct rest as [|c rest]; [done|]. cbn [delimited ends_number].
  rewrite is_ws_cases. intros [[->|[->|[->| ->]]]|[->|[->| ->]]]; by split_and!.
Qed.

Lemma ws_delimited w rest : Grammar.ws w -> closing rest -> delimited (w +:+ rest).
Proof.
  destruct 1; [|rewrite string_app_cons; by left..].
  rewrite string_app_nil_l. destruct rest; [done|]. cbn [closing delimited]. tauto.
Qed.

Lemma skip_ws_closing rest : closing rest -> skip_ws rest = rest.
Proof.
  destruct rest as [|c rest]; [done|]. cbn [closing].
  intros [->|[->| ->]]; reflexivity.
Qed.

Lemma element_start e x :
  Grammar.element e ->
  exists c r, skip_ws (e +:+ x) = String c r /\ value_start c.
Proof.
  intros [w1 v w2 Hw1 Hv Hw2].
  apply value_head in Hv as (c & t' & -> & Hc).
  exists c. eexists. flat. rewrite skip_ws_app by done.
  rewrite skip_ws_stays by by apply value_start_plain. done.
Qed.

Lemma elements_start es x :
  Grammar.elements es ->
  exists c r, skip_ws (es +:+ x) = String c r /\ value_start c.
Proof.
  intros [e He|e es' He Hes]; [by apply element_start|].
  rewrite string_app_assoc. by apply element_start.
Qed.

Lemma member_start m x :
  Grammar.member m -> exists r, skip_ws (m +:+ x) = String dquote r.
Proof.
  intros [w1 s w2 e Hw1 [t Ht] Hw2 He]. eexists. flat.
  rewrite skip_ws_app by done. reflexivity.
Qed.

Lemma members_start ms x :
  Grammar.members ms -> exists r, skip_ws (ms +:+ x) = String dquote r.
Proof.
  intros [m Hm|m ms' Hm Hms]; [by apply member_start|].
  rewrite string_app_assoc. by apply member_start.
Qed.

(** [parse_value] in front of white space and of each kind of value. *)
Lemma parse_value_ws fuel w c r :
  Grammar.ws w -> is_ws c = false ->
  parse_value fuel (w +:+ String c r) = parse_value fuel (String c r).
Proof.
  intros Hw Hc. destruct fuel as [|fuel]; [reflexivity|]. cbn [parse_value].
  by rewrite skip_ws_app, !skip_ws_stays.
Qed.

Lemma parse_value_number fuel c r :
  c = "-"%char \/ Grammar.digit c ->
  parse_value (S fuel) (String c r)
  = '(x, rest) ← parse_number (String c r); Some (VNum x, rest).
Proof. intros [->|Hc]; [reflexivity|]. one_of_cases Hc; reflexivity. Qed.

Lemma parse_complete :
  (forall t, Grammar.value t ->
     forall fuel w rest,
       String.length t <= fuel -> Grammar.ws w -> delimited rest ->
       exists v, parse_value fuel (w +:+ t +:+ rest) = Some (v, rest))
  /\ (forall ms, Grammar.members ms ->
     forall fuel rest,
       String.length ms < fuel ->
       exists kvs, parse_members fuel (ms +:+ String "}" rest) = Some (kvs, rest))
  /\ (forall m, Grammar.member m ->
     forall fuel rest,
       String.length m <= fuel -> closing rest ->
       exists r1 k r2 r3 v r4,
         strip (String dquote "") (skip_ws (m +:+ rest)) = Some r1
         /\ parse_chars r1 = Some (k, r2)
         /\ strip ":" (skip_ws r2) = Some r3
         /\ parse_value fuel r3 = Some (v, r4)
         /\ skip_ws r4 = rest)
  /\ (forall es, Grammar.elements es ->
     forall fuel rest,
       String.length es < fuel ->
       exists vs, parse_elements fuel (es +:+ String "]" rest) = Some (vs, rest))
  /\ (forall e, Grammar.element e ->
     forall fuel rest,
       String.length e <= fuel -> closing rest ->
       exists v r, parse_value fuel (e +:+ rest) = Some (v, r) /\ skip_ws r = rest).
Proof.
  apply grammar_ind.
  - (* {} *)
    intros w Hw fuel w0 rest Hlen Hw0 Hrest.
    destruct fuel as [|fuel]; [lengths Hlen; lia|].
    flat. rewrite parse_value_ws by done. cbn [parse_value].
    rewrite skip_ws_stays by done.
    rewrite (bool_decide_eq_true_2 ("{"%char = "{"%char)) by done.
    change (bool_decide ("{"%char = "n"%char)) with false.
    change (bool_decide ("{"%char = "t"%char)) with false.
    change (bool_decide ("{"%char = "f"%char)) with false.
    change (bool_decide ("{"%char = dquote)) with false.
    change (bool_decide ("{"%char = "["%char)) with false.
    cbn match. rewrite skip_ws_app by done.
    exists (VObj []). reflexivity.
  - (* { members } *)
    intros ms Hms IH fuel w0 rest Hlen Hw0 Hrest.
    destruct fuel as [|fuel]; [lengths Hlen; lia|].
    flat. rewrite parse_value_ws by done. cbn [parse_value].
    rewrite skip_ws_stays by done.
    rewrite (bool_decide_eq_true_2 ("{"%char = "{"%char)) by done.
    change (bool_decide ("{"%char = "n"%char)) with false.
    change (bool_decide ("{"%char = "t"%char)) with false.
    change (bool_decide ("{"%char = "f"%char)) with false.
    change (bool_decide ("{"%char = dquote)) with false.
    change (bool_decide ("{"%char = "["%char)) with false.
    cbn match.
    destruct (members_start ms (String "}" rest) Hms) as [r ->].
    change (strip "}" (String dquote r)) with (@None string).
    destruct (IH fuel rest) as [kvs ->].
    { lengths Hlen. lia. }
    eexists. reflexivity.
  - (* [] *)
    intros w Hw fuel w0 rest Hlen Hw0 Hrest.
    destruct fuel as [|fuel]; [lengths Hlen; lia|].
    flat. rewrite parse_value_ws by done. cbn [parse_value].
    rewrite skip_ws_stays by done.
    rewrite (bool_decide_eq_true_2 ("["%char = "["%char)) by done.
    change (bool_decide ("["%char = "n"%char)) with false.
    change (bool_decide ("["%char = "t"%char)) with false.
    change (bool_decide ("["%char = "f"%char)) with false.
    change (bool_decide ("["%char = dquote)) with false.
    cbn match. rewrite skip_ws_app by done.
    exists (VArr []). reflexivity.
  - (* [ elements ] *)
    intros es Hes IH fuel w0 rest Hlen Hw0 Hrest.
    destruct fuel as [|fuel]; [lengths Hlen; lia|].
    flat. rewrite parse_value_ws by done. cbn [parse_value].
    rewrite skip_ws_stays by done.
    rewrite (bool_decide_eq_true_2 ("["%char = "["%char)) by done.
    change (bool_decide ("["%char = "n"%char)) with false.
    change (bool_decide ("["%char = "t"%char)) with false.
    change (bool_decide ("["%char = "f"%char)) with false.
    change (bool_decide ("["%char = dquote)) with false.
    cbn match.
    destruct (elements_start es (String "]" rest) Hes) as (c & r & -> & Hc).
    apply value_start_plain in Hc as (_ & Hc & _).
    replace (strip "]" (String c r)) with (@None string)
      by (cbn [strip]; by rewrite bool_decide_eq_false_2).
    destruct (IH fuel rest) as [vs ->].
    { lengths Hlen. lia. }
    eexists. reflexivity.
  - (* a string *)
    intros s [t Ht] fuel w0 rest Hlen Hw0 Hrest.
    destruct fuel as [|fuel]; [lengths Hlen; lia|].
    flat. rewrite parse_value_ws by done. cbn [parse_value].
    rewrite skip_ws_stays by done.
    rewrite (bool_decide_eq_true_2 (dquote = dquote)) by done.
    change (bool_decide (dquote = "n"%char)) with false.
    change (bool_decide (dquote = "t"%char)) with false.
    change (bool_decide (dquote = "f"%char)) with false.
    cbn match.
    destruct (parse_chars_read t rest Ht) as [str ->].
    eexists. reflexivity.
  - (* a number *)
    intros s Hs fuel w0 rest Hlen Hw0 Hrest.
    destruct (number_head s Hs) as (c & t' & Heq & Hc).
    destruct fuel as [|fuel]; [subst s; cbn [String.length] in Hlen; lia|].
    destruct (parse_number_read s rest Hs (delimited_ends_number _ Hrest)) as [x Hx].
    subst s. rewrite string_app_cons in *. rewrite parse_value_ws; [|done|].
    + rewrite parse_value_number by done. rewrite Hx. eexists. reflexivity.
    + destruct Hc as [->|Hc]; [done|]. one_of_cases Hc; reflexivity.
  - intros fuel w0 rest Hlen Hw0 Hrest.
    destruct fuel as [|fuel]; [lengths Hlen; lia|].
    flat. rewrite parse_value_ws by done. by exists (VBool true).
  - intros fuel w0 rest Hlen Hw0 Hrest.
    destruct fuel as [|fuel]; [lengths Hlen; lia|].
    flat. rewrite parse_value_ws by done. by exists (VBool false).
  - intros fuel w0 rest Hlen Hw0 Hrest.
    destruct fuel as [|fuel]; [lengths Hlen; lia|].
    flat. rewrite parse_value_ws by done. by exists VNull.
  - (* one member *)
    intros m Hm IH fuel rest Hlen.
    destruct fuel as [|fuel]; [lia|].
    destruct (IH fuel (String "}" rest))
      as (r1 & k & r2 & r3 & v & r4 & H1 & H2 & H3 & H4 & H5);
      [lia|cbn [closing]; tauto|].
    cbn [parse_members]. rewrite H1. cbn [mbind option_bind].
    rewrite H2. cbn [mbind option_bind]. rewrite H3. cbn [mbind option_bind].
    rewrite H4. cbn [mbind option_bind]. rewrite H5.
    eexists. reflexivity.
  - (* a member and more *)
    intros m ms Hm IHm Hms IHms fuel rest Hlen.
    destruct fuel as [|fuel]; [lia|].
    lengths Hlen.
    destruct (IHm fuel (String "," (ms +:+ String "}" rest)))
      as (r1 & k & r2 & r3 & v & r4 & H1 & H2 & H3 & H4 & H5);
      [lia|cbn [closing]; tauto|].
    destruct (IHms fuel rest) as [kvs Hkvs]; [lia|].
    flat. cbn [parse_members]. rewrite H1. cbn [mbind option_bind].
    rewrite H2. cbn [mbind option_bind]. rewrite H3. cbn [mbind option_bind].
    rewrite H4. cbn [mbind option_bind]. rewrite H5.
    rewrite (bool_decide_eq_true_2 (","%char = ","%char)) by done.
    rewrite Hkvs. eexists. reflexivity.
  - (* a member *)
    intros w1 s w2 e Hw1 [t Ht] Hw2 He IH fuel rest Hlen Hrest.
    lengths Hlen.
    destruct (IH fuel rest) as (v & r & Hv & Hr); [lia|done|].
    destruct (parse_chars_read t (w2 +:+ String ":" (e +:+ rest)) Ht) as [k Hk].
    exists (t +:+ String dquote (w2 +:+ String ":" (e +:+ rest))), k,
      (w2 +:+ String ":" (e +:+ rest)), (e +:+ rest), v, r.
    flat. rewrite !skip_ws_app by done. split_and!; done.
  - (* one element *)
    intros e He IH fuel rest Hlen.
    destruct fuel as [|fuel]; [lia|].
    destruct (IH fuel (String "]" rest)) as (v & r & Hv & Hr);
      [lia|cbn [closing]; tauto|].
    cbn [parse_elements]. rewrite Hv. cbn [mbind option_bind]. rewrite Hr.
    eexists. reflexivity.
  - (* an element and more *)
    intros e es He IHe Hes IHes fuel rest Hlen.
    destruct fuel as [|fuel]; [lia|].
    lengths Hlen.
    destruct (IHe fuel (String "," (es +:+ String "]" rest))) as (v & r & Hv & Hr);
      [lia|cbn [closing]; tauto|].
    destruct (IHes fuel rest) as [vs Hvs]; [lia|].
    flat. cbn [parse_elements].
    rewrite Hv. cbn [mbind option_bind]. rewrite Hr.
    rewrite (bool_decide_eq_true_2 (","%char = ","%char)) by done.
    rewrite Hvs. eexists. reflexivity.
  - (* an element *)
    intros w1 v w2 Hw1 Hv IH Hw2 fuel rest Hlen Hrest.
    rewrite !string_app_length in Hlen.
    destruct (IH fuel w1 (w2 +:+ rest)) as [x Hx];
      [lia|done|by apply ws_delimited|].
    exists x, (w2 +:+ rest). rewrite !string_app_assoc. split; [done|].
    rewrite skip_ws_app by done. by apply skip_ws_closing.
Qed.


Lemma ws_delimited_alone w : Grammar.ws w -> delimited w.
Proof. intros Hw. rewrite <- (string_app_nil_r w). by apply ws_delimited. Qed.

(** [JSON.parse] takes a text exactly when the text is JSON. *)
Lemma parse_accepts text : is_Some (parse text) <-> Grammar.json text.
Proof.
  unfold parse, Grammar.json. split.
  - intros [v Hv].
    destruct (parse_value _ text) as [[v' rest]|] eqn:Hparse; [|discriminate].
    cbn [mbind option_bind] in Hv. case_bool_decide as Hrest; [|discriminate].
    apply parse_sound in Hparse as (w & t & Hw & Ht & ->).
    apply skip_ws_nil in Hrest. by apply Grammar.element_value.
  - intros [w1 v w2 Hw1 Hv Hw2].
    destruct (proj1 parse_complete v Hv (S (String.length (w1 +:+ v +:+ w2))) w1 w2)
      as [x Hx]; [rewrite !string_app_length; lia|done|by apply ws_delimited_alone|].
    rewrite Hx. cbn [mbind option_bind].
    rewrite (bool_decide_eq_true_2 (skip_ws w2 = "")) by by apply skip_ws_nil.
    by eexists.
Qed.

Lemma parse_rejects text : parse text = None <-> ~ Grammar.json text.
Proof.
  rewrite <- parse_accepts, <- eq_None_not_Some. done.
Qed.

End Texts.

Section IndexKeys.

Context {number : Type}.

(** The indices of an array, or of a string, are distinct keys. *)
Lemma index_keys_NoDup {A} (f : nat -> A -> value number) (l : list A) :
  NoDup (imap (fun i x => (pretty i, f i x)) l).*1.
Proof.
  apply NoDup_alt. intros i j k Hi Hj.
  rewrite list_lookup_fmap, list_lookup_imap in Hi, Hj.
  destruct (l !! i), (l !! j); simplify_eq/=.
  by apply (inj pretty).
Qed.

End IndexKeys.

(** ** Prototypes with properties that cannot be written *)

Section DescriptorFacts.

Context {number : Type}.
Implicit Types (c : Descriptors.chain number) (p : prototype number).
Implicit Types (v : value number) (key : string).
Implicit Types (properties acc : list (string * value number)).

Lemma Set_ordinary (this : object number) key v :
  Descriptors.Set_ (lift this) key v = Ok (lift (Set_ this key v)).
Proof.
  unfold Descriptors.Set_, Set_, lift. cbn [Descriptors.own Descriptors.proto].
  case_bool_decide; [done|]. cbn [Descriptors.resolve].
  destruct (bool_decide (key = "__proto__") && finds_proto_accessor (proto this));
    [|done].
  by destruct v.
Qed.

Lemma assign_ordinary properties : forall this : object number,
  Descriptors.assign (lift this) properties
  = Ok (lift (foldl (fun this kv => Set_ this kv.1 kv.2) this properties)).
Proof.
  induction properties as [|[key v] properties IH]; intros this; [done|].
  cbn [Descriptors.assign foldl fst snd]. by rewrite Set_ordinary, IH.
Qed.

(** Under a prototype without descriptors [fromJSON] is the [fromJSON]
    above. *)
Lemma fromJSON_ordinary `{JSONRuntime number} p (text : string) :
  Descriptors.fromJSON (Descriptors.ordinary p) text
  = match fromJSON p text with
    | Ok obj => Ok (lift obj)
    | Throw e => Throw e
    end.
Proof.
  unfold Descriptors.fromJSON, fromJSON.
  destruct (JSON_parse text) as [v|]; [|done].
  apply (assign_ordinary _ (Object_create p)).
Qed.




End DescriptorFacts.

(** ** getJSON and then fromJSON *)

(** C8: a value that owns a property named [__proto__] does not come
    back.  [getJSON] writes [proto_keyed] as [{"__proto__":{"a":1}}];
    from that text [fromJSON(Rectangle.prototype, ...)] returns an object
    that has no field at all and whose prototype is the parsed [{"a":1}],
    where the claim has an object under [Rectangle.prototype] with the
    field of [proto_keyed]. *)
Theorem fromJSON_getJSON_loses_proto_key :
  getJSON proto_keyed = JSON.text "{'__proto__':{'a':1}}"
  /\ fromJSON Rectangle_prototype (getJSON proto_keyed)
     = Ok {| proto := parsed_prototype (VObj [("a", VNum 1%float)]); own := [] |}
  /\ fromJSON Rectangle_prototype (getJSON proto_keyed)
     <> Ok {| proto := Rectangle_prototype; own := own_enumerable proto_keyed |}.
Proof.
  split_and!.
  - vm_compute; reflexivity.
  - vm_compute; reflexivity.
  - vm_compute; discriminate.
Qed.

(** ** What fromJSON throws *)



(** Under the frozen [Rectangle.prototype] a text with other keys is
    read as under [Rectangle.prototype]. *)
Example fromJSON_frozen_prototype_other_keys :
  Descriptors.fromJSON Descriptors.frozen_Rectangle_prototype
    (JSON.text "{'width':10, 'height':20}")
  = Ok {| Descriptors.proto := Descriptors.frozen_Rectangle_prototype;
          Descriptors.own := [("width", VNum 10%float); ("height", VNum 20%float)] |}.
Proof. vm_compute; reflexivity. Qed.

(** [fromJSON] on texts: the example of the documentation, a text that is
    cut short, and numbers with a fraction and an exponent. *)
Example fromJSON_documented :
  fromJSON Rectangle_prototype (JSON.text "{'width':10, 'height':20}")
  = Ok {| proto := Rectangle_prototype;
          own := [("width", VNum 10%float); ("height", VNum 20%float)] |}.
Proof. vm_compute; reflexivity. Qed.

Example fromJSON_cut_short :
  fromJSON Rectangle_prototype (JSON.text "{'width':10, 'height':")
  = Throw SyntaxError.
Proof. vm_compute; reflexivity. Qed.

Example fromJSON_fractions :
  fromJSON Rectangle_prototype (JSON.text "{'width':0.5, 'height':1e2}")
  = Ok {| proto := Rectangle_prototype;
          own := [("width", VNum 0.5%float); ("height", VNum 100%float)] |}.
Proof. vm_compute; reflexivity. Qed.

(** Texts inside and outside the grammar. *)
Example json_with_white_space : Grammar.json (JSON.text " [1.5e3 , true, {'a' : null}] ").
Proof. apply parse_accepts. vm_compute. by eexists. Qed.

Example not_json_zero_in_front : ~ Grammar.json "01".
Proof. apply parse_rejects. vm_compute; reflexivity. Qed.

Example not_json_comma_at_end : ~ Grammar.json (JSON.text "{'a':1,}").
Proof. apply parse_rejects. vm_compute; reflexivity. Qed.

Example not_json_single_quotes : ~ Grammar.json "{'a':1}".
Proof. apply parse_rejects. vm_compute; reflexivity. Qed.

(** The runtime on numbers beyond 2^53, on large and small numbers, and
    on keys that are array indices. *)
Example parse_rounds :
  JSON.parse "[9007199254740993, -0, 1E400]"
  = Some (VArr [VNum 9007199254740992%float; VNum (-0)%float; VNum infinity]).
Proof. vm_compute; reflexivity. Qed.

Example stringify_numbers :
  JSON.stringify
    (VArr [VNum 1e21%float; VNum 0.5%float; VNum (-0)%float; VNum infinity])
  = "[1e+21,0.5,0,null]".
Proof. vm_compute; reflexivity. Qed.

Example stringify_parsed_numbers :
  JSON.stringify
  <$> JSON.parse "[0.000001, 1e-7, 0.1, 1.5E+300, 123456789012345678901]"
  = Some "[0.000001,1e-7,0.1,1.5e+300,123456789012345680000]".
Proof. vm_compute; reflexivity. Qed.

Example parse_orders_keys :
  JSON.parse (JSON.text "{'b':1, '2':2, 'a':3, '1':4, 'b':5}")
  = Some (VObj [("1", VNum 4%float); ("2", VNum 2%float);
                ("b", VNum 5%float); ("a", VNum 3%float)]).
Proof. vm_compute; reflexivity. Qed.

Example parse_code_units :
  JSON.parse (JSON.text "'A\u00e9\n\u2028'")
  = Some (VStr (String "A" (String "233" (String "010" (String "?" ""))))).
Proof. vm_compute; reflexivity. Qed.

(** ** More on the selector builder *)

Section ChainFacts.

Implicit Types (this s : Selector) (c : category) (value : string).
Implicit Types (l : list (category * string)).

(** The six methods hand six different strings to [_checkDuplicate]. *)
Lemma seen_key_inj c c' : seen_key c = seen_key c' -> c = c'.
Proof. by destruct c, c'. Qed.

Lemma exec_calls_cons c value l this :
  exec (calls ((c, value) :: l)) this =
  (if bool_decide (seen_key c ∈ seen this)
   then Throw (Error duplicate_message)
   else exec (calls l)
          {| specificity := specificity this + weight c;
             parts := parts this ++ [fragment (c, value)];
             seen := seen this ∪ {[ seen_key c ]} |}).
Proof.
  unfold exec. rewrite calls_cons, add_unfold. by case_bool_decide.
Qed.

(** What a successful chain has added to the specificity. *)
Lemma calls_specificity l : forall this s,
  exec (calls l) this = Ok s ->
  specificity s = (specificity this + foldr Z.add 0 (weight <$> l.*1))%Z.
Proof.
  induction l as [|[c value] l IH]; intros this s Hrun.
  - change (Ok this = Ok s) in Hrun. injection Hrun as <-. cbn. lia.
  - rewrite exec_calls_cons in Hrun.
    case_bool_decide; [discriminate|].
    apply IH in Hrun. rewrite Hrun. cbn. lia.
Qed.

(** A chain that goes through calls no method twice and no method that
    the builder has seen. *)
Lemma calls_Ok_fresh l : forall this s,
  exec (calls l) this = Ok s ->
  NoDup l.*1 /\ (forall c, c ∈ l.*1 -> seen_key c ∉ seen this).
Proof.
  induction l as [|[c value] l IH]; intros this s Hrun.
  - split; [constructor|]. intros c Hc. by apply elem_of_nil in Hc.
  - rewrite exec_calls_cons in Hrun. change (((c, value) :: l).*1) with (c :: l.*1).
    destruct (decide (seen_key c ∈ seen this)) as [Hseen|Hseen].
    { by rewrite bool_decide_eq_true_2 in Hrun. }
    rewrite bool_decide_eq_false_2 in Hrun by done.
    apply IH in Hrun as [Hnodup Hfresh]. cbn [seen] in Hfresh.
    rewrite NoDup_cons. split_and!; [|done|].
    + intros Hc. apply (Hfresh c Hc).
      apply elem_of_union_r. by apply elem_of_singleton.
    + intros c' [->|Hc']%elem_of_cons; [done|].
      intros Hin. apply (Hfresh c' Hc'). by apply elem_of_union_l.
Qed.

(** And a chain of different methods, none of which the builder has seen,
    goes through. *)
Lemma calls_fresh_Ok l : forall this,
  NoDup l.*1 -> (forall c, c ∈ l.*1 -> seen_key c ∉ seen this) ->
  exists s, exec (calls l) this = Ok s.
Proof.
  induction l as [|[c value] l IH]; intros this Hnodup Hfresh.
  - by exists this.
  - change (((c, value) :: l).*1) with (c :: l.*1) in *.
    apply NoDup_cons in Hnodup as [Hc Hnodup].
    rewrite exec_calls_cons, bool_decide_eq_false_2
      by apply Hfresh, list_elem_of_here.
    apply IH; [done|]. cbn [seen].
    intros c' Hc' [Hin|Hin%elem_of_singleton]%elem_of_union.
    + apply (Hfresh c'); [by apply list_elem_of_further|done].
    + apply seen_key_inj in Hin as ->. done.
Qed.

(** A chain in two pieces. *)
Lemma exec_calls_app l1 l2 : forall this,
  exec (calls (l1 ++ l2)) this = exec (calls l1) this ;> calls l2.
Proof.
  induction l1 as [|[c value] l1 IH]; intros this; [done|].
  rewrite <- app_comm_cons, !exec_calls_cons.
  case_bool_decide; [done|]. apply IH.
Qed.

(** The chain that an entry point of the facade stands for. *)
Lemma facade_as_calls c value :
  facade c value
  = exec (calls match c with
                | Element => [(Element, value)]
                | _ => [(Element, ""); (c, value)]
                end) new_Selector.
Proof. destruct c; vm_compute; reflexivity. Qed.

(** The strings a successful chain has added to [seen]. *)
Lemma calls_seen l : forall this s,
  exec (calls l) this = Ok s ->
  seen s = seen this ∪ list_to_set (seen_key <$> l.*1).
Proof.
  induction l as [|[c value] l IH]; intros this s Hrun.
  - change (Ok this = Ok s) in Hrun. injection Hrun as <-.
    change (seen this = seen this ∪ ∅). by rewrite union_empty_r_L.
  - rewrite exec_calls_cons in Hrun.
    destruct (bool_decide (seen_key c ∈ seen this)); [discriminate|].
    apply IH in Hrun. rewrite Hrun. cbn [seen].
    change (list_to_set (seen_key <$> ((c, value) :: l).*1))
      with ({[ seen_key c ]} ∪ list_to_set (seen_key <$> l.*1) : gset string).
    by rewrite (assoc_L (∪)).
Qed.

(** There are six categories, so six calls at most without a repeat. *)
Lemma NoDup_categories (cs : list category) : NoDup cs -> length cs <= 6.
Proof.
  intros Hnodup.
  change 6 with (length [Element; Id; Class; Attr; PseudoClass; PseudoElement]).
  apply submseteq_length, NoDup_submseteq; [done|].
  intros c _. destruct c; set_solver.
Qed.

End ChainFacts.

(** X1: a chain of calls that goes through adds the weights of its
    calls to the specificity (1, 100, 10, 1, 1 and 0 for element, id,
    class, attr, pseudo-class and pseudo-element), adds the names of its
    methods to [seen], and appends its fragments to [parts] in call
    order. *)
Theorem chain_leaves (l : list (category * string)) (this s : Selector) :
  exec (calls l) this = Ok s ->
  specificity s = (specificity this + foldr Z.add 0 (weight <$> l.*1))%Z /\
  seen s = seen this ∪ list_to_set (seen_key <$> l.*1) /\
  parts s = parts this ++ (fragment <$> l).
Proof.
  intros Hrun. split_and!.
  - by apply calls_specificity.
  - by apply calls_seen.
  - by apply (calls_inv l this s Hrun).
Qed.

(** [element('div').id('main').class('container')] on a fresh builder. *)
Lemma chain_leaves_witness :
  exists s : Selector,
    exec (calls [(Element, "div"); (Id, "main"); (Class, "container")])
      new_Selector = Ok s /\
    specificity s = 111%Z /\ parts s = ["div"; "#main"; ".container"].
Proof.
  eexists. split; [vm_compute; reflexivity|].
  destruct (chain_leaves
    [(Element, "div"); (Id, "main"); (Class, "container")] new_Selector _
    ltac:(vm_compute; reflexivity)) as (Hsp & _ & Hparts).
  split; [exact Hsp|exact Hparts].
Defined.

(** X2: a chain of calls on a builder goes through exactly when it calls
    no method twice and no method that the builder has already seen;
    the values passed and the order of the calls play no part. *)
Theorem chain_succeeds_iff (l : list (category * string)) (this : Selector) :
  (exists s, exec (calls l) this = Ok s) <->
  NoDup l.*1 /\ (forall c, c ∈ l.*1 -> seen_key c ∉ seen this).
Proof.
  split.
  - intros [s Hrun]. by apply (calls_Ok_fresh l this s).
  - intros [Hnodup Hfresh]. by apply calls_fresh_Ok.
Qed.

(** X3: a builder that starts empty never holds more than six parts:
    a chain of calls that goes through on [new Selector()] leaves at most
    six fragments. *)
Theorem at_most_six_parts (l : list (category * string)) (s : Selector) :
  exec (calls l) new_Selector = Ok s -> length (parts s) <= 6.
Proof.
  intros Hrun.
  destruct (calls_inv l _ s Hrun) as (-> & _ & _).
  cbn [parts new_Selector app]. rewrite length_map.
  rewrite <- (length_fmap fst). apply NoDup_categories.
  by apply (calls_Ok_fresh l new_Selector s).
Qed.

(** One call of each of the six methods. *)
Lemma at_most_six_parts_witness :
  exists s : Selector,
    exec (calls [(Element, "a"); (Id, "b"); (Class, "c"); (Attr, "d");
                 (PseudoClass, "e"); (PseudoElement, "f")]) new_Selector = Ok s /\
    length (parts s) <= 6.
Proof.
  eexists. split; [vm_compute; reflexivity|].
  apply (at_most_six_parts
    [(Element, "a"); (Id, "b"); (Class, "c"); (Attr, "d");
     (PseudoClass, "e"); (PseudoElement, "f")]).
  vm_compute; reflexivity.
Defined.

(** X4: [combine] is associative: combining [a] with [b] and the result
    with [d] gives the same selector (parts, specificity and an empty
    [seen]) as combining [a] with the combination of [b] and [d]. *)
Theorem combine_assoc (a b d : Selector) (c1 c2 : string) :
  cssSelectorBuilder.combine (cssSelectorBuilder.combine a c1 b) c2 d
  = cssSelectorBuilder.combine a c1 (cssSelectorBuilder.combine b c2 d).
Proof.
  unfold cssSelectorBuilder.combine. cbn [specificity parts seen new_Selector].
  f_equal.
  - by rewrite Z.max_assoc.
  - rewrite !app_nil_l. by rewrite <- !app_assoc.
Qed.

(** X5: a combined selector starts with an empty [seen], so any one call
    on it goes through, whatever its operands held, and its fragment lands
    after the text of the right operand. *)
Theorem combined_takes_any_call (left right : Selector) (combinator : string)
    (c : category) (value : string) :
  exists s : Selector,
    exec (add c value) (cssSelectorBuilder.combine left combinator right) = Ok s /\
    eval Selector.stringify s
    = Ok (join "" (parts left) +:+ " " +:+ combinator +:+ " "
          +:+ join "" (parts right) +:+ fragment (c, value)).
Proof.
  eexists. split.
  - unfold exec. rewrite add_unfold.
    rewrite bool_decide_eq_false_2; [reflexivity|].
    cbn [cssSelectorBuilder.combine seen new_Selector]. apply not_elem_of_empty.
  - cbv [eval Selector.stringify cssSelectorBuilder.combine parts new_Selector].
    f_equal. rewrite app_nil_l, <- !app_assoc.
    rewrite join_empty_app. f_equal. cbn [app].
    rewrite !join_empty_cons. do 3 f_equal.
    rewrite join_empty_app. f_equal.
Qed.

(** X6: the empty element fragment that the facade adds counts in the
    specificity: after an entry point other than [element] and a chain of
    calls, the specificity is 1 plus the weight of the entry point plus
    the weights of the calls (and 1 plus the weights of the calls after
    [element]). *)
Theorem facade_chain_specificity (c : category) (value : string)
    (l : list (category * string)) (s : Selector) :
  facade c value ;> calls l = Ok s ->
  specificity s
  = (match c with Element => 1 | _ => 1 + weight c end
     + foldr Z.add 0 (weight <$> l.*1))%Z.
Proof.
  assert (exists s0, facade c value = Ok s0 /\
            specificity s0 = match c with Element => 1 | _ => 1 + weight c end%Z)
    as (s0 & -> & <-).
  { destruct c; eexists; (split; [vm_compute; reflexivity|reflexivity]). }
  intros Hrun. by apply calls_specificity.
Qed.

(** [id('main').class('container')] from the facade has specificity 111. *)
Lemma facade_chain_specificity_witness :
  exists s : Selector,
    cssSelectorBuilder.id "main" ;> calls [(Class, "container")] = Ok s /\
    specificity s = 111%Z.
Proof.
  eexists. split; [vm_compute; reflexivity|].
  apply (facade_chain_specificity Id "main" [(Class, "container")]).
  vm_compute; reflexivity.
Defined.

(** X7: after an entry point of the facade, a chain of calls goes through
    exactly when it calls no method twice, does not call [element], and
    does not call the method of the entry point. *)
Theorem facade_chain_succeeds_iff (c : category) (value : string)
    (l : list (category * string)) :
  (exists s, facade c value ;> calls l = Ok s) <->
  NoDup l.*1 /\ (Element ∉ l.*1) /\ (c ∉ l.*1).
Proof.
  rewrite facade_as_calls, <- exec_calls_app. split.
  - intros [s Hrun]. apply calls_Ok_fresh in Hrun as [Hnodup _].
    rewrite fmap_app in Hnodup.
    destruct c; cbn [fmap list_fmap fst app] in Hnodup;
      repeat (apply NoDup_cons in Hnodup as [? Hnodup]);
      split_and!; try done;
      intros ?; match goal with H : _ ∉ _ :: _ |- _ =>
        apply H; by apply list_elem_of_further end.
  - intros (Hnodup & Hel & Hc). apply calls_fresh_Ok.
    + rewrite fmap_app.
      destruct c; cbn [fmap list_fmap fst app]; repeat apply NoDup_cons_2;
        try done; by intros [?|?]%elem_of_cons.
    + intros c' _. cbn [seen new_Selector]. apply not_elem_of_empty.
Qed.

(** ** More on fromJSON *)

Section AssignFacts.

Context {number : Type}.
Implicit Types (p : prototype number) (v x : value number) (key : string).
Implicit Types (properties acc : list (string * value number)).

(** The digits of an index never start with an underscore. *)
Lemma pretty_N_go_not_underscore (n : N) (s s' : string) :
  s <> "_" +:+ s' -> pretty_N_go n s <> "_" +:+ s'.
Proof.
  revert s. induction (N.lt_wf_0 n) as [n _ IH]; intros s Hs.
  assert (n = 0 \/ 0 < n)%N as [->|Hpos] by lia.
  - by rewrite pretty_N_go_0.
  - rewrite pretty_N_go_step by done. apply IH.
    { by apply N.div_lt. }
    unfold pretty_N_char. by repeat case_match.
Qed.

Lemma pretty_index_not_proto (i : nat) : pretty i <> "__proto__".
Proof.
  unfold pretty, pretty_nat, pretty, pretty_N.
  case_decide; [done|]. by apply pretty_N_go_not_underscore.
Qed.

Lemma index_keys_not_proto {A} (f : nat -> A -> value number) (l : list A) :
  "__proto__" ∉ (imap (fun i a => (pretty i, f i a)) l).*1.
Proof.
  intros (i & Hi)%list_elem_of_lookup_1.
  rewrite list_lookup_fmap, list_lookup_imap in Hi.
  destruct (l !! i); simplify_eq/=.
  by eapply pretty_index_not_proto.
Qed.

Lemma filter_not_proto properties :
  "__proto__" ∉ properties.*1 ->
  filter (fun kv => kv.1 <> "__proto__") properties = properties.
Proof.
  induction properties as [|[k x] properties IH]; intros Hkey; [done|].
  change ("__proto__" ∉ k :: properties.*1) in Hkey.
  apply not_elem_of_cons in Hkey as [Hne Hkey].
  rewrite filter_cons_True by (cbn; congruence). by rewrite IH.
Qed.

(** Without the accessor up the chain every key is a field, whatever its
    name. *)
Lemma assign_no_accessor p properties : forall acc,
  finds_proto_accessor p = false ->
  NoDup (acc.*1 ++ properties.*1) ->
  foldl (fun this kv => Set_ this kv.1 kv.2)
    {| proto := p; own := acc |} properties
  = {| proto := p; own := acc ++ properties |}.
Proof.
  induction properties as [|[k x] properties IH]; intros acc Hp Hnodup.
  - by rewrite app_nil_r.
  - change (NoDup (acc.*1 ++ k :: properties.*1)) in Hnodup.
    assert (k ∉ acc.*1) as Hfresh.
    { apply NoDup_app in Hnodup as (_ & Hdisj & _).
      intros Hin. apply (Hdisj k Hin), list_elem_of_here. }
    cbn [foldl fst snd]. unfold Set_ at 2. cbn [own proto].
    rewrite (bool_decide_eq_false_2 (k ∈ acc.*1)) by done.
    rewrite Hp, andb_false_r, define_own_fresh by done.
    rewrite IH; [by rewrite <- app_assoc|done|].
    rewrite fmap_app. cbn [fmap list_fmap fst]. by rewrite <- app_assoc.
Qed.

(** With the accessor up the chain, the key [__proto__] goes to the
    setter and every other key becomes a field. *)
Lemma assign_proto_key p properties : forall acc i v,
  finds_proto_accessor p = true ->
  NoDup (acc.*1 ++ properties.*1) ->
  "__proto__" ∉ acc.*1 ->
  properties !! i = Some ("__proto__", v) ->
  foldl (fun this kv => Set_ this kv.1 kv.2)
    {| proto := p; own := acc |} properties
  = set_proto
      {| proto := p;
         own := acc ++ filter (fun kv => kv.1 <> "__proto__") properties |} v.
Proof.
  induction properties as [|[k x] properties IH]; intros acc i v Hp Hnodup Hacc Hi;
    [done|].
  change (NoDup (acc.*1 ++ k :: properties.*1)) in Hnodup.
  destruct i as [|i].
  - injection Hi as -> ->.
    assert ("__proto__" ∉ properties.*1) as Hrest.
    { apply NoDup_app in Hnodup as (_ & _ & Hnodup).
      by apply NoDup_cons in Hnodup as [? _]. }
    assert (NoDup (acc.*1 ++ properties.*1)) as Hnodup'.
    { apply NoDup_app in Hnodup as (Ha & Hdisj & Hps).
      apply NoDup_cons in Hps as [_ Hps]. apply NoDup_app. split_and!; [done| |done].
      intros k Hk Hin. apply (Hdisj k Hk). by apply list_elem_of_further. }
    rewrite filter_cons_False by (cbn; tauto).
    rewrite filter_not_proto by done.
    cbn [foldl fst snd]. unfold Set_ at 2. cbn [own proto].
    rewrite (bool_decide_eq_false_2 ("__proto__" ∈ acc.*1)) by done.
    rewrite bool_decide_eq_true_2 by done. rewrite Hp. cbn [andb].
    destruct v; cbn [set_proto own proto]; by rewrite assign_fresh.
  - cbn in Hi.
    assert (k <> "__proto__") as Hk.
    { intros ->. apply NoDup_app in Hnodup as (_ & _ & Hnodup).
      apply NoDup_cons in Hnodup as [Hk _]. apply Hk.
      apply list_elem_of_fmap. exists ("__proto__", v). split; [done|].
      by eapply list_elem_of_lookup_2. }
    assert (k ∉ acc.*1) as Hfresh.
    { apply NoDup_app in Hnodup as (_ & Hdisj & _).
      intros Hin. apply (Hdisj k Hin), list_elem_of_here. }
    cbn [foldl fst snd]. rewrite Set_fresh by done.
    rewrite filter_cons_True by done.
    rewrite (IH _ i v); [by rewrite <- app_assoc|done| | |done].
    + rewrite fmap_app. cbn [fmap list_fmap fst]. by rewrite <- app_assoc.
    + rewrite fmap_app. cbn [fmap list_fmap fst].
      intros [Hin|Hin%list_elem_of_singleton]%elem_of_app; [done|congruence].
Qed.

End AssignFacts.

(** X8: when the text is JSON for an array, a string, a number, a
    boolean or null, [fromJSON] returns an object under the prototype [p]
    whose fields are the indexed elements of the array, the indexed
    characters of the string, and none for the other values. *)
Theorem fromJSON_not_object {number : Type} `{JSONRuntime number}
    (p : prototype number) (text : string) (v : value number) :
  JSON_parse text = Some v ->
  (forall properties, v <> VObj properties) ->
  fromJSON p text = Ok {| proto := p; own := own_enumerable v |}.
Proof.
  intros Hparse Hv. unfold fromJSON. rewrite Hparse. f_equal.
  unfold Object_assign, Object_create.
  destruct v as [|b|n|s|elements|properties]; cbn [own_enumerable];
    try reflexivity.
  - apply (assign_fresh p _ []).
    + apply (index_keys_NoDup (fun _ c => VStr (String c ""))).
    + apply (index_keys_not_proto (fun _ c => VStr (String c ""))).
  - apply (assign_fresh p _ []).
    + apply (index_keys_NoDup (fun _ x => x)).
    + apply (index_keys_not_proto (fun _ x => x)).
  - by destruct (Hv properties).
Qed.

(** An array comes back as an object with the fields [0] and [1]. *)
Lemma fromJSON_not_object_witness :
  fromJSON Rectangle_prototype (JSON.text "[10, 'ab']")
  = Ok {| proto := Rectangle_prototype;
          own := [("0", VNum 10%float); ("1", VStr "ab")] |}.
Proof.
  apply (fromJSON_not_object Rectangle_prototype (JSON.text "[10, 'ab']")
           (VArr [VNum 10%float; VStr "ab"])).
  - vm_compute; reflexivity.
  - discriminate.
Defined.

(** X9: when the text is JSON for an object with a key [__proto__] and
    the prototype [p] inherits the accessor of [Object.prototype], the
    object that [fromJSON] returns owns every other field of the text and
    no field [__proto__]; the value under that key has gone to the setter:
    an object, an array or null has replaced the prototype, and a number,
    a string or a boolean is lost. *)
Theorem fromJSON_proto_key {number : Type} `{JSONRuntime number}
    (p : prototype number) (text : string)
    (properties : list (string * value number)) (i : nat) (v : value number) :
  JSON_parse text = Some (VObj properties) ->
  NoDup properties.*1 ->
  finds_proto_accessor p = true ->
  properties !! i = Some ("__proto__", v) ->
  fromJSON p text
  = Ok (set_proto
          {| proto := p;
             own := filter (fun kv => kv.1 <> "__proto__") properties |} v).
Proof.
  intros Hparse Hnodup Hp Hi. unfold fromJSON. rewrite Hparse. f_equal.
  unfold Object_assign, Object_create. cbn [own_enumerable].
  apply (assign_proto_key p properties [] i v); [done|done| |done].
  apply not_elem_of_nil.
Qed.

(** A number under [__proto__] is lost, the other fields are kept. *)
Lemma fromJSON_proto_key_witness :
  fromJSON Rectangle_prototype (JSON.text "{'x':2, '__proto__':5, 'y':3}")
  = Ok {| proto := Rectangle_prototype;
          own := [("x", VNum 2%float); ("y", VNum 3%float)] |}.
Proof.
  apply (fromJSON_proto_key Rectangle_prototype
           (JSON.text "{'x':2, '__proto__':5, 'y':3}")
           [("x", VNum 2%float); ("__proto__", VNum 5%float); ("y", VNum 3%float)]
           1 (VNum 5%float)).
  - vm_compute; reflexivity.
  - apply (bool_decide_unpack _). vm_compute; exact I.
  - reflexivity.
  - reflexivity.
Defined.

(** X10: under a prototype whose chain does not reach the accessor of
    [Object.prototype] (a chain that ends in null, or a shape that has a
    property [__proto__] of its own), [fromJSON] keeps every field of the
    parsed value, a field [__proto__] included, and the prototype. *)
Theorem fromJSON_without_accessor {number : Type} `{JSONRuntime number}
    (p : prototype number) (text : string) (v : value number) :
  JSON_parse text = Some v ->
  NoDup (own_enumerable v).*1 ->
  finds_proto_accessor p = false ->
  fromJSON p text = Ok {| proto := p; own := own_enumerable v |}.
Proof.
  intros Hparse Hnodup Hp. unfold fromJSON. rewrite Hparse. f_equal.
  unfold Object_assign, Object_create. by apply (assign_no_accessor p _ []).
Qed.

(** Under a shape on top of null, [__proto__] is a field like any other. *)
Lemma fromJSON_without_accessor_witness :
  fromJSON (shape_prototype ["getArea"] null_prototype)
    (JSON.text "{'__proto__':{'a':1}}")
  = Ok {| proto := shape_prototype ["getArea"] null_prototype;
          own := [("__proto__", VObj [("a", VNum 1%float)])] |}.
Proof.
  apply (fromJSON_without_accessor (shape_prototype ["getArea"] null_prototype)
           (JSON.text "{'__proto__':{'a':1}}") proto_keyed).
  - vm_compute; reflexivity.
  - apply (bool_decide_unpack _). vm_compute; exact I.
  - reflexivity.
Defined.
